(** * restredux: the queried-entity controller

    A shallow embedding of [src/queriedEntity/queriedEntity.js], the higher
    order component that keeps the query parameters of one entity type,
    decides when a network call is due, preloads predicted queries and
    refreshes the view after a mutation.

    Layout:
    - [JsObject]      plain JavaScript objects with string keys, as ordered
                      association lists, with the object spread of the source;
    - [KeyEncoder]    the cache-key encoder of the helpers module;
    - [QueriedEntity] the component class: its state, the store slice it
                      reads, the actions it dispatches and its methods;
    - the properties of the methods. *)

From Stdlib Require Import ZArith QArith Lia.
From stdpp Require Import base list strings gmap sorting pretty.

Close Scope Q_scope.
Local Open Scope Z_scope.

(** ** Scalar values held by query parameters and response fields *)

Inductive Value : Type :=
  | VNull
  | VBool (b : bool)
  | VNum (z : Z)
  | VStr (s : string).

(** ** JavaScript objects

    An object literal is the list of its own enumerable properties in
    insertion order; keys are property names that are not array indices, so
    the enumeration order is the insertion order.  A well-formed object
    holds each key once. *)

Module JsObject.

Definition Obj : Type := list (string * Value).

Definition keys (o : Obj) : list string := o.*1.

Definition wf (o : Obj) : Prop := NoDup (keys o).

(** [o[k]] *)
Fixpoint get (k : string) (o : Obj) : option Value :=
  match o with
  | [] => None
  | (k', v) :: o' => if String.eqb k k' then Some v else get k o'
  end.

(** [o[k] = v]: an existing property keeps its place, a new one goes last. *)
Fixpoint set (k : string) (v : Value) (o : Obj) : Obj :=
  match o with
  | [] => [(k, v)]
  | (k', v') :: o' =>
      if String.eqb k k' then (k, v) :: o' else (k', v') :: set k v o'
  end.

(** [delete o[k]] *)
Fixpoint remove (k : string) (o : Obj) : Obj :=
  match o with
  | [] => []
  | (k', v) :: o' =>
      if String.eqb k k' then remove k o' else (k', v) :: remove k o'
  end.

(** [Object.assign(target, src)]: the properties of [src], in order. *)
Definition assign (target src : Obj) : Obj :=
  fold_left (fun acc kv => set kv.1 kv.2 acc) src target.

(** [{...a}] *)
Definition copy (a : Obj) : Obj := assign [] a.

(** [{...a, ...b}] *)
Definition spread (a b : Obj) : Obj := assign (copy a) b.

End JsObject.

(** ** The cache-key encoder *)

Module KeyEncoder.
Import JsObject.

(** The text of a scalar in a query string. *)
Definition render (v : Value) : string :=
  match v with
  | VNull => "null"
  | VBool true => "true"
  | VBool false => "false"
  | VNum z => pretty z
  | VStr s => s
  end.

(** Lexicographic order of two properties by their keys. *)
Definition key_le (a b : string * Value) : Prop := String.leb a.1 b.1 = true.

#[global] Instance key_le_dec a b : Decision (key_le a b) :=
  decide (String.leb a.1 b.1 = true).

Definition pair_text (kv : string * Value) : string :=
  kv.1 +:+ "=" +:+ render kv.2.

(** Modelled from the spec: [encodeAPICall] is imported from the helpers
    module, which is not among the sources.  Section 4.1 of the
    specification: sort the parameter keys lexicographically, concatenate
    them as key=value pairs joined by a stable delimiter, prefixed by the
    url. *)
Definition encode (url : string) (params : Obj) : string :=
  url +:+ "?" +:+ String.concat "&" (pair_text <$> merge_sort key_le params).

(** The encoder at the url of a component, which is [undefined] until
    [initialQuery] has run. *)
Definition encodeCall (url : option string) (params : Obj) : string :=
  encode (default "undefined" url) params.

End KeyEncoder.

(** ** The component *)

Module QueriedEntity.
Import JsObject.

(** *** The store slice read through [this.props[PL(entityName)]] *)

(** A stored response: its fields, and [preloadedAt], a [Date] (in
    milliseconds) present on the records written by a preload. *)
Record CacheEntry : Type := {
  preloadedAt : option Z;
  fields : Obj }.

(** What a cache key maps to: the [LOADING] sentinel of the helpers module, a
    truthy value other than any stored response, or a stored response. *)
Inductive CacheRecord : Type :=
  | LOADING
  | Loaded (r : CacheEntry).

Record NetworkTimer : Type := {
  average : Q;
  numberOfCalls : Z }.

Record Bucket : Type := {
  records : gmap string CacheRecord;
  networkTimer : NetworkTimer }.

(** *** Options of the higher order component and what it imports *)

(** The function registered with [setPreLoader]: from the given params, the
    merged params and the metadata of the current query to the list of
    params to preload. *)
Definition Predictor : Type := Obj -> Obj -> CacheEntry -> list Obj.

Class Setup : Type := {
  entityName : string;
  resultField : option string;
  hideLoadIfDataFound : bool;
  retain_number : Z;
  preloadValidTime : Z;
  smartPreload : bool;
  smartThresholdTime : Q;
  (** [encodeAPICall] of the helpers module *)
  encodeAPICall : option string -> Obj -> string;
  (** the own enumerable properties of the [LOADING] sentinel, which
      [{...queryData}] copies when the current record is in flight *)
  LOADING_own : CacheEntry;
  (** whether React batches [setState] in the running turn: [this.state]
      then changes only when the turn is over *)
  batchedUpdates : bool }.

Definition RETAIN_NUMBER : Z := 10.
Definition PRELOAD_VALID_TIME : Z := 10000.
Definition SMART_THRESHOLD_TIME : Q := 300 # 1.
Definition RESULT_FIELD : string := "content".

(** *** Component state *)

Record State : Type := {
  url : option string;
  params : Obj;
  loadingData : bool }.

(** The argument of [setState]: the fields it mentions. *)
Record Patch : Type := {
  p_url : option (option string);
  p_params : option Obj;
  p_loadingData : option bool }.

Definition applyPatch (s : State) (p : Patch) : State :=
  {| url := default (url s) (p_url p);
     params := default (params s) (p_params p);
     loadingData := default (loadingData s) (p_loadingData p) |}.

Record Instance : Type := {
  state : State;
  (** [setState] calls of the running turn that React has not applied yet *)
  pendingState : list Patch;
  preLoaderFunc : option Predictor }.

(** [state = {params: {}, loadingData: false}], [preLoaderFunc = undefined] *)
Definition initialInstance : Instance :=
  {| state := {| url := None; params := []; loadingData := false |};
     pendingState := [];
     preLoaderFunc := None |}.

(** *** What a method does to the outside *)

Inductive DeleteArg : Type :=
  | ById (id : string)
  | ByEntity (entity : Obj).

(** The calls of the injected props, in the order they are made; the hooks
    and the actions return without throwing.  [Predict] records a call of
    the registered preloader function. *)
Inductive Event : Type :=
  | Freeze
  | Unfreeze
  | QueryEntities (name : string) (u : option string) (ps : Obj)
      (markLoading isPreload smart : bool)
  | PushToQueue (name : string) (key : string) (retain : Z)
  | CreateEntity (name : string) (entity : Obj) (u : option string)
  | UpdateEntity (name : string) (entity : Obj) (u : option string)
      (field : option string)
  | PatchEntity (name : string) (entity : Obj) (u : option string)
      (field : option string)
  | DeleteEntity (name : string) (entity : Obj) (u : option string)
      (field : option string)
  | Predict (ps merged : Obj) (metadata : CacheEntry).

Inductive Completion (A : Type) : Type :=
  | Normal (a : A)
  | Thrown (msg : string).
Arguments Normal {A} a.
Arguments Thrown {A} msg.

(** What a turn reads but does not change: the props of the last render and
    the clock.  A dispatch changes the store, but the component sees the new
    store only with the props of its next render, after the turn. *)
Record Env : Type := {
  props : Bucket;
  now : Z }.

(** A computation of the component: it reads the environment, changes the
    instance and makes calls. *)
Definition M (A : Type) : Type :=
  Env -> Instance -> Completion A * Instance * list Event.

Definition ret {A} (a : A) : M A := fun _ s => (Normal a, s, []).

Definition bind {A B} (m : M A) (f : A -> M B) : M B :=
  fun e s =>
    match m e s with
    | (Normal a, s', t) =>
        let '(r, s'', t') := f a e s' in (r, s'', t ++ t')
    | (Thrown msg, s', t) => (Thrown msg, s', t)
    end.

#[global] Instance M_ret : MRet M := @ret.
#[global] Instance M_bind : MBind M := fun A B f m => bind m f.

Definition throw {A} (msg : string) : M A := fun _ s => (Thrown msg, s, []).
Definition call (ev : Event) : M unit := fun _ s => (Normal tt, s, [ev]).
Definition getProps : M Bucket := fun e s => (Normal (props e), s, []).
Definition getNow : M Z := fun e s => (Normal (now e), s, []).
Definition getState : M State := fun _ s => (Normal (state s), s, []).
Definition getPreLoader : M (option Predictor) :=
  fun _ s => (Normal (preLoaderFunc s), s, []).

Definition when (b : bool) (m : M unit) : M unit := if b then m else ret tt.

(** [list.forEach(f)]: the results of [f] are dropped by the source; they
    are kept here so that the promises made in the loop can be settled. *)
Fixpoint forEach {A B} (l : list A) (f : A -> M (list B)) : M (list B) :=
  match l with
  | [] => ret []
  | x :: l' => r ← f x; rs ← forEach l' f; ret (r ++ rs)
  end.

Section Methods.
Context {setup : Setup}.

(** The instance after [setState(p)]: the update is queued when React
    batches, applied at once otherwise. *)
Definition updated (s : Instance) (p : Patch) : Instance :=
  if batchedUpdates
  then {| state := state s;
          pendingState := pendingState s ++ [p];
          preLoaderFunc := preLoaderFunc s |}
  else {| state := applyPatch (state s) p;
          pendingState := pendingState s;
          preLoaderFunc := preLoaderFunc s |}.

Definition setState (p : Patch) : M unit :=
  fun _ s => (Normal tt, updated s p, []).

(** React applies the pending updates when the turn is over. *)
Definition flush (s : Instance) : Instance :=
  {| state := fold_left applyPatch (pendingState s) (state s);
     pendingState := [];
     preLoaderFunc := preLoaderFunc s |}.

(** One turn of the event loop: a method call or a promise reaction. *)
Definition turn {A} (m : M A) (e : Env) (s : Instance)
  : Completion A * Instance * list Event :=
  let '(r, s', t) := m e s in (r, flush s', t).

(** *** Promises

    The promise a method returns or drops, by the reactions attached to the
    promise of the dispatched action:
    [Promise.resolve()], [p.then(f)] and [p.then(f).catch(g)]. *)
Inductive Outcome : Type := Fulfilled | Rejected.

Inductive Promise : Type :=
  | PResolved
  | PThen (f : M unit)
  | PThenCatch (f g : M unit).

Definition react (h : M unit) : M Outcome :=
  fun e s =>
    match h e s with
    | (Normal _, s', t) => (Normal Fulfilled, s', t)
    | (Thrown _, s', t) => (Normal Rejected, s', t)
    end.

(** The reactions run when the promise of the action settles with [o], and
    the outcome of the promise the method returned. *)
Definition settle (p : Promise) (o : Outcome) : M Outcome :=
  match p with
  | PResolved => ret Fulfilled
  | PThen f =>
      match o with
      | Fulfilled => react f
      | Rejected => ret Rejected
      end
  | PThenCatch f g =>
      match o with
      | Fulfilled =>
          r ← react f;
          match r with Fulfilled => ret Fulfilled | Rejected => react g end
      | Rejected => react g
      end
  end.

(** *** Methods of the class *)

(** JavaScript truthiness of the values the methods test. *)
Definition truthyString (u : option string) : bool :=
  match u with
  | Some v => negb (String.eqb v "")
  | None => false
  end.

(** A record, being an object or the sentinel, is truthy; a key that is not
    in the bucket reads [undefined]. *)
Definition truthy (data : option CacheRecord) : bool :=
  match data with
  | Some _ => true
  | None => false
  end.

(** [x > y] on the latencies *)
Definition Qgtb (x y : Q) : bool := negb (Qle_bool x y).

(** [checkSetup]: whether [initialQuery] is called and the url is known. *)
Definition checkSetup : M unit :=
  st ← getState;
  if truthyString (url st) then ret tt
  else throw ("No url specified for " +:+ entityName).

(** [shouldLoad(data)] at the time [t] that [new Date()] reads. *)
Definition shouldLoad (t : Z) (data : option CacheRecord) : bool :=
  match data with
  | None => true
  | Some LOADING => false
  | Some (Loaded r) =>
      match preloadedAt r with
      | Some t0 => if t - t0 <? preloadValidTime then false else true
      | None => true
      end
  end.

(** [collectGarbage(url, params)] *)
Definition collectGarbage (u : option string) (ps : Obj) : M unit :=
  call (PushToQueue entityName (encodeAPICall u ps) retain_number).

Definition emptyEntry : CacheEntry := {| preloadedAt := None; fields := [] |}.

(** [{...queryData}] where [queryData = record || {}] *)
Definition ownProps (data : option CacheRecord) : CacheEntry :=
  match data with
  | None => emptyEntry
  | Some LOADING => LOADING_own
  | Some (Loaded r) =>
      {| preloadedAt := preloadedAt r; fields := copy (fields r) |}
  end.

(** [delete queryMetadata[f]] *)
Definition deleteField (f : string) (e : CacheEntry) : CacheEntry :=
  if String.eqb f "preloadedAt"
  then {| preloadedAt := None; fields := fields e |}
  else {| preloadedAt := preloadedAt e; fields := remove f (fields e) |}.

(** [queryMetadata], which is [undefined] when no result field is set *)
Definition queryMetadata (data : option CacheRecord) : option CacheEntry :=
  if truthyString resultField
  then Some (deleteField (default "" resultField) (ownProps data))
  else None.

(** [{...queryMetadata}] *)
Definition metadataCopy (m : option CacheEntry) : CacheEntry :=
  match m with
  | Some e => {| preloadedAt := preloadedAt e; fields := copy (fields e) |}
  | None => emptyEntry
  end.

(** The test of the smart mode: more than three calls timed and an average
    above the threshold. *)
Definition tooSlow (tm : NetworkTimer) : bool :=
  (3 <? numberOfCalls tm) && Qgtb (average tm) smartThresholdTime.

(** The body of the loop of [preload], for one predicted [params]. *)
Definition preloadOne (u : option string) (p : Obj) : M (list Promise) :=
  st ← getState;
  let fullParams := spread (params st) p in
  pr ← getProps;
  let data := records pr !! encodeAPICall u fullParams in
  if truthy data then ret []
  else
    call (QueryEntities entityName u fullParams (negb (truthy data))
            true smartPreload);;
    ret [PThenCatch (collectGarbage u fullParams) (ret tt)].

(** [preload(params, url)].  The promises of the preloading calls are
    returned in the order of the calls. *)
Definition preload (ps : Obj) (u : option string) : M (list Promise) :=
  pl ← getPreLoader;
  match pl with
  | None => ret []
  | Some preLoader =>
      pr ← getProps;
      if smartPreload && tooSlow (networkTimer pr) then ret []
      else
        let queryData := records pr !! encodeAPICall u ps in
        let metadata := metadataCopy (queryMetadata queryData) in
        st ← getState;
        let merged := spread (params st) ps in
        call (Predict ps merged metadata);;
        let paramsList := preLoader ps merged metadata in
        forEach paramsList (preloadOne u)
  end.

(** The reaction of [query] to a fetch that succeeded *)
Definition queryDone (u : option string) (newParams : Obj) : M unit :=
  setState {| p_url := None; p_params := None; p_loadingData := Some false |};;
  call Unfreeze;;
  collectGarbage u newParams.

(** The reaction of [query] to a fetch that failed *)
Definition queryFailed (oldParams : Obj) : M unit :=
  setState {| p_url := None; p_params := Some oldParams;
              p_loadingData := Some false |};;
  call Unfreeze.

(** [query(params = this.state.params, url = this.state.url, initial = false)];
    an argument left out or [undefined] is [None]. *)
Definition query (ps : option Obj) (u : option string) (initial : bool)
  : M Promise :=
  st ← getState;
  let ps := default (params st) ps in
  let u := match u with Some _ => u | None => url st end in
  let oldParams := if initial then copy ps else copy (params st) in
  let newParams := spread oldParams ps in
  setState {| p_url := None; p_params := Some newParams;
              p_loadingData := Some true |};;
  pr ← getProps;
  let data := records pr !! encodeAPICall u newParams in
  when (negb (truthy data) || negb hideLoadIfDataFound) (call Freeze);;
  _ ← preload ps u;
  t ← getNow;
  if negb (shouldLoad t data) then ret PResolved
  else
    call (QueryEntities entityName u newParams (negb (truthy data))
            false smartPreload);;
    ret (PThenCatch (queryDone u newParams) (queryFailed oldParams)).

(** [initialQuery(url, params = {})] *)
Definition initialQuery (u : option string) (ps : option Obj) : M Promise :=
  setState {| p_url := Some u; p_params := None; p_loadingData := None |};;
  query (Some (default [] ps)) u true.

(** The reaction every mutation attaches: [unfreeze] and a fresh [query()]. *)
Definition refresh : M unit :=
  call Unfreeze;;
  _ ← query None None false;
  ret tt.

(** [create(entity)] *)
Definition create (entity : Obj) : M Promise :=
  checkSetup;;
  call Freeze;;
  st ← getState;
  call (CreateEntity entityName entity (url st));;
  ret (PThen refresh).

(** [update(entity)] *)
Definition update (entity : Obj) : M Promise :=
  checkSetup;;
  call Freeze;;
  st ← getState;
  call (UpdateEntity entityName entity (url st) resultField);;
  ret (PThen refresh).

(** [patch(fields)] *)
Definition patch (fs : Obj) : M Promise :=
  checkSetup;;
  call Freeze;;
  st ← getState;
  call (PatchEntity entityName fs (url st) resultField);;
  ret (PThen refresh).

(** [delete(entity)], with the entity or its id as a string *)
Definition delete (arg : DeleteArg) : M Promise :=
  checkSetup;;
  let entity :=
    match arg with
    | ById id => [("id", VStr id)]
    | ByEntity e => e
    end in
  call Freeze;;
  st ← getState;
  call (DeleteEntity entityName entity (url st) resultField);;
  ret (PThen refresh).

(** [setPreLoader(preLoaderFunc)] *)
Definition setPreLoader (f : Predictor) : M unit :=
  fun _ s =>
    (Normal tt, {| state := state s; pendingState := pendingState s;
                   preLoaderFunc := Some f |}, []).

(** *** The store side of [queryEntities] *)

(** Modelled from the spec: the action [queryEntities] and its reducer are
    not among the sources.  Section 4.3 of the specification: if
    [markLoading], the action immediately writes a [LOADING] sentinel record
    at the derived key, before the network call returns. *)
Definition markLoadingWrite (b : gmap string CacheRecord) (ev : Event)
  : gmap string CacheRecord :=
  match ev with
  | QueryEntities _ u ps true _ _ => <[encodeAPICall u ps := LOADING]> b
  | _ => b
  end.

(** The bucket once the calls of a turn have been dispatched. *)
Definition dispatched (b : Bucket) (t : list Event) : Bucket :=
  {| records := fold_left markLoadingWrite t (records b);
     networkTimer := networkTimer b |}.

(** The fetches among the calls of a turn. *)
Definition isFetch (ev : Event) : bool :=
  match ev with
  | QueryEntities _ _ _ _ _ _ => true
  | _ => false
  end.

Definition fetches (t : list Event) : list Event :=
  filter (fun ev => isFetch ev = true) t.

(** The cache key a fetch is for. *)
Definition fetchKey (ev : Event) : option string :=
  match ev with
  | QueryEntities _ u ps _ _ _ => Some (encodeAPICall u ps)
  | _ => None
  end.

(** *** Reading a run *)

Definition result {A} (r : Completion A * Instance * list Event)
  : Completion A := r.1.1.
Definition after {A} (r : Completion A * Instance * list Event)
  : Instance := r.1.2.
Definition calls {A} (r : Completion A * Instance * list Event)
  : list Event := r.2.

(** The preloading fetch for the predicted [p], as [preloadOne] makes it. *)
Definition speculative (s : Instance) (u : option string) (p : Obj) : Event :=
  QueryEntities entityName u (spread (params (state s)) p) true true
    smartPreload.

(** Whether the props hold a record at the key of [ps]. *)
Definition cached (e : Env) (u : option string) (ps : Obj) : bool :=
  truthy (records (props e) !! encodeAPICall u ps).

(** What the preloader [f] answers when [preload(ps, u)] consults it. *)
Definition predicted (f : Predictor) (e : Env) (s : Instance) (ps : Obj)
  (u : option string) : list Obj :=
  f ps (spread (params (state s)) ps)
    (metadataCopy (queryMetadata (records (props e) !! encodeAPICall u ps))).

(** The arguments [query] works with once the defaults are filled in. *)
Definition givenParams (s : Instance) (ps : option Obj) : Obj :=
  default (params (state s)) ps.
Definition givenUrl (s : Instance) (u : option string) : option string :=
  match u with Some _ => u | None => url (state s) end.
Definition oldParamsOf (s : Instance) (ps : option Obj) (initial : bool)
  : Obj :=
  if initial then copy (givenParams s ps) else copy (params (state s)).
Definition newParamsOf (s : Instance) (ps : option Obj) (initial : bool)
  : Obj :=
  spread (oldParamsOf s ps initial) (givenParams s ps).

(** The record [query] finds for the merged params. *)
Definition dataOf (e : Env) (s : Instance) (ps : option Obj)
  (u : option string) (initial : bool) : option CacheRecord :=
  records (props e) !! encodeAPICall (givenUrl s u) (newParamsOf s ps initial).

(** The instance [query] leaves behind: the merged params and the loading
    flag are set. *)
Definition queried (s : Instance) (ps : option Obj) (initial : bool)
  : Instance :=
  updated s {| p_url := None; p_params := Some (newParamsOf s ps initial);
               p_loadingData := Some true |}.

(** Without batching no update is ever left pending. *)
Definition consistent (s : Instance) : Prop :=
  batchedUpdates = false -> pendingState s = [].

(** The promise a method returned; a method that threw returned none. *)
Definition returned (r : Completion Promise * Instance * list Event)
  : Promise :=
  match result r with
  | Normal p => p
  | Thrown _ => PResolved
  end.

(** The fetch of the direct path of [query]. *)
Definition directFetch (e : Env) (s : Instance) (ps : option Obj)
  (u : option string) (initial : bool) : Event :=
  QueryEntities entityName (givenUrl s u) (newParamsOf s ps initial)
    (negb (truthy (dataOf e s ps u initial))) false smartPreload.

(** The promises a run of [preload] made and dropped. *)
Definition promised (r : Completion (list Promise) * Instance * list Event)
  : list Promise :=
  match result r with
  | Normal l => l
  | Thrown _ => []
  end.

(** The promise of the preloading fetch for the predicted [p], as
    [preloadOne] chains it. *)
Definition preloadPromise (s : Instance) (u : option string) (p : Obj)
  : Promise :=
  PThenCatch (collectGarbage u (spread (params (state s)) p)) (ret tt).

(** The key [collectGarbage] pushes once the fetch of [query] succeeded. *)
Definition queriedKey (s : Instance) (ps : option Obj) (u : option string)
  (initial : bool) : string :=
  encodeAPICall (givenUrl s u) (newParamsOf s ps initial).

(** Whether a method threw. *)
Definition threw {A} (r : Completion A * Instance * list Event) : bool :=
  match result r with
  | Normal _ => false
  | Thrown _ => true
  end.

End Methods.

End QueriedEntity.

(** ** A concrete component, for the scenarios of the specification *)

Module Demo.
Import JsObject QueriedEntity.

(** [queriedEntity("user")] with the default options, under the key encoder
    of the specification. *)
Definition userSetup (smart batched : bool) : Setup :=
  {| entityName := "user";
     resultField := Some RESULT_FIELD;
     hideLoadIfDataFound := true;
     retain_number := RETAIN_NUMBER;
     preloadValidTime := PRELOAD_VALID_TIME;
     smartPreload := smart;
     smartThresholdTime := SMART_THRESHOLD_TIME;
     encodeAPICall := KeyEncoder.encodeCall;
     LOADING_own := emptyEntry;
     batchedUpdates := batched |}.

Definition page (n : Z) : Obj := [("page", VNum n)].

(** A preloader that predicts the next page. *)
Definition nextPage : Predictor :=
  fun ps merged _ =>
    match get "page" merged with
    | Some (VNum n) => [page (n + 1)]
    | _ => []
    end.

Definition timer (avg : Q) (calls : Z) : NetworkTimer :=
  {| average := avg; numberOfCalls := calls |}.

Definition bucket (rs : list (string * CacheRecord)) (tm : NetworkTimer)
  : Bucket :=
  {| records := list_to_map rs; networkTimer := tm |}.

Definition idle : NetworkTimer := timer (0 # 1) 0.

(** The props and the clock of a turn. *)
Definition env (rs : list (string * CacheRecord)) (tm : NetworkTimer) (t : Z)
  : Env :=
  {| props := bucket rs tm; now := t |}.

Definition users : option string := Some "/users".

(** A component whose [initialQuery("/users", {page: 1})] has been rendered. *)
Definition onPage1 (pl : option Predictor) : Instance :=
  {| state := {| url := users; params := page 1; loadingData := false |};
     pendingState := [];
     preLoaderFunc := pl |}.

Definition response (at_ : option Z) : CacheRecord :=
  Loaded {| preloadedAt := at_; fields := [("total", VNum 40)] |}.

(** The setup of the scenarios, with and without batching. *)
Definition plain : Setup := userSetup false true.
Definition unbatched : Setup := userSetup false false.

(** A stored response that holds its rows under the result field. *)
Definition listing : CacheEntry :=
  {| preloadedAt := None;
     fields := [("content", VStr "rows"); ("total", VNum 40)] |}.

Definition size (n : Z) : Obj := [("size", VNum n)].

End Demo.

(** * Properties *)

(** ** Objects *)

Section ObjectFacts.
Import JsObject.

Lemma get_set k k' v o :
  get k (set k' v o) = if String.eqb k k' then Some v else get k o.
Proof.
  induction o as [|[k0 v0] o IH]; simpl.
  - destruct (String.eqb k k'); reflexivity.
  - destruct (String.eqb k' k0) eqn:E0; simpl.
    + apply String.eqb_eq in E0; subst k0.
      destruct (String.eqb k k'); reflexivity.
    + destruct (String.eqb k k0) eqn:E1.
      * apply String.eqb_eq in E1; subst k0.
        destruct (String.eqb k k') eqn:E2; [|reflexivity].
        apply String.eqb_eq in E2; subst k'.
        rewrite String.eqb_refl in E0; discriminate.
      * exact IH.
Qed.

Lemma get_None k o : get k o = None <-> k ∉ keys o.
Proof.
  induction o as [|[k0 v0] o IH]; simpl.
  - split; [intros _; apply not_elem_of_nil | reflexivity].
  - rewrite not_elem_of_cons. destruct (String.eqb k k0) eqn:E.
    + apply String.eqb_eq in E. split; [discriminate | intros [? _]; done].
    + apply String.eqb_neq in E. rewrite IH. tauto.
Qed.

Lemma get_Some_elem k v o : wf o -> (k, v) ∈ o -> get k o = Some v.
Proof.
  unfold wf, keys. induction o as [|[k0 v0] o IH]; simpl; intros Hwf Hin.
  - by apply elem_of_nil in Hin.
  - apply NoDup_cons in Hwf as [Hk0 Hwf].
    apply elem_of_cons in Hin as [Heq | Hin].
    + inversion Heq; subst. by rewrite String.eqb_refl.
    + destruct (String.eqb k k0) eqn:E; [|by apply IH].
      apply String.eqb_eq in E; subst k0. exfalso. apply Hk0.
      apply (list_elem_of_fmap_2 fst) in Hin. exact Hin.
Qed.

Lemma set_fresh k v o : k ∉ keys o -> set k v o = o ++ [(k, v)].
Proof.
  induction o as [|[k0 v0] o IH]; simpl; [done|].
  rewrite not_elem_of_cons. intros [Hne Hk].
  destruct (String.eqb k k0) eqn:E.
  - apply String.eqb_eq in E. done.
  - by rewrite IH.
Qed.

Lemma set_same k v o : get k o = Some v -> set k v o = o.
Proof.
  induction o as [|[k0 v0] o IH]; simpl; [done|].
  destruct (String.eqb k k0) eqn:E.
  - apply String.eqb_eq in E. intros [= ->]. by subst.
  - intros H. by rewrite IH.
Qed.

Lemma keys_set k v o :
  keys (set k v o) = if decide (k ∈ keys o) then keys o else keys o ++ [k].
Proof.
  unfold keys. induction o as [|[k0 v0] o IH].
  - destruct (decide (k ∈ ([] : Obj).*1)) as [Hin | _]; [|done].
    by apply elem_of_nil in Hin.
  - cbn [set]. rewrite fmap_cons. cbn [fst].
    destruct (String.eqb k k0) eqn:E.
    + apply String.eqb_eq in E; subst k0.
      destruct (decide (k ∈ k :: o.*1)) as [_ | Hin]; [done|].
      exfalso; apply Hin; by left.
    + apply String.eqb_neq in E. rewrite fmap_cons, IH. cbn [fst].
      destruct (decide (k ∈ o.*1)) as [Hin | Hin];
        destruct (decide (k ∈ k0 :: o.*1)) as [Hin' | Hin']; try done.
      * exfalso. apply Hin'. by right.
      * exfalso. apply elem_of_cons in Hin' as [? | ?]; done.
Qed.

Lemma wf_set k v o : wf o -> wf (set k v o).
Proof.
  unfold wf. rewrite keys_set. intros Hwf.
  destruct (decide (k ∈ keys o)) as [|Hk]; [done|].
  apply NoDup_app. split; [done|]. split.
  - intros x Hx Hx'. apply list_elem_of_singleton in Hx'. by subst.
  - apply NoDup_singleton.
Qed.

Lemma wf_assign t s : wf t -> wf (assign t s).
Proof.
  unfold assign. revert t. induction s as [|[k v] s IH]; simpl; intros t Ht.
  - done.
  - apply IH, wf_set, Ht.
Qed.

Lemma wf_copy a : wf (copy a).
Proof. apply wf_assign. apply NoDup_nil_2. Qed.

Lemma wf_spread a b : wf (spread a b).
Proof. apply wf_assign, wf_copy. Qed.

(** Assigning a well-formed object whose keys are new appends it. *)
Lemma assign_fresh t s : wf (t ++ s) -> assign t s = t ++ s.
Proof.
  unfold assign, wf, keys. revert t.
  induction s as [|[k v] s IH]; simpl; intros t Hwf.
  - by rewrite app_nil_r.
  - rewrite set_fresh.
    + rewrite IH; rewrite <- app_assoc; done.
    + rewrite fmap_app in Hwf. apply NoDup_app in Hwf as (_ & Hdisj & _).
      intros Hk. apply (Hdisj k Hk). simpl. by left.
Qed.

Lemma copy_wf a : wf a -> copy a = a.
Proof. intros Hwf. unfold copy. by rewrite assign_fresh. Qed.

Lemma get_assign_fresh k t s :
  get k (assign t s) =
    match get k (assign [] s) with Some v => Some v | None => get k t end.
Proof.
  unfold assign. revert t. induction s as [|[k0 v0] s IH] using rev_ind;
    intros t; simpl.
  - done.
  - rewrite !fold_left_app. simpl. rewrite !get_set.
    destruct (String.eqb k k0); [done | apply IH].
Qed.

(** The shallow merge: a key of [b] takes the value of [b], any other key
    keeps the value of [a]. *)
Lemma get_spread k a b :
  wf a -> wf b ->
  get k (spread a b) =
    match get k b with Some v => Some v | None => get k a end.
Proof.
  intros Ha Hb. unfold spread. rewrite get_assign_fresh.
  fold (copy b). by rewrite !copy_wf.
Qed.

Lemma assign_same t s :
  (forall k v, (k, v) ∈ s -> get k t = Some v) -> assign t s = t.
Proof.
  unfold assign. induction s as [|[k v] s IH]; simpl; intros H; [done|].
  rewrite set_same.
  - apply IH. intros k' v' Hin. apply H. by right.
  - apply H. by left.
Qed.

(** [{...a, ...a}] is [a]. *)
Lemma spread_self a : wf a -> spread a a = a.
Proof.
  intros Hwf. unfold spread. rewrite copy_wf by done.
  apply assign_same. intros k v Hin. by apply get_Some_elem.
Qed.

End ObjectFacts.

(** ** The lexicographic order of keys *)

Section KeyOrder.
Import JsObject KeyEncoder.

Lemma ascii_compare_trans c a b c' :
  Ascii.compare a b = c -> Ascii.compare b c' = c -> Ascii.compare a c' = c.
Proof.
  unfold Ascii.compare. destruct c; intros H1 H2.
  - apply N.compare_eq_iff in H1, H2. apply N.compare_eq_iff. congruence.
  - rewrite N.compare_lt_iff in *. lia.
  - rewrite N.compare_gt_iff in *. lia.
Qed.

Lemma string_compare_refl s : String.compare s s = Eq.
Proof.
  induction s as [|a s IH]; simpl; [done|].
  assert (Ascii.compare a a = Eq) as ->; [|done].
  unfold Ascii.compare. apply N.compare_refl.
Qed.

Lemma string_compare_lt_trans s1 s2 s3 :
  String.compare s1 s2 = Lt -> String.compare s2 s3 = Lt ->
  String.compare s1 s3 = Lt.
Proof.
  revert s2 s3. induction s1 as [|a s1 IH]; intros [|b s2] [|c s3]; simpl;
    try done.
  destruct (Ascii.compare a b) eqn:Hab; try done;
    destruct (Ascii.compare b c) eqn:Hbc; try done; intros H1 H2.
  - rewrite (ascii_compare_trans Eq a b c Hab Hbc). by eapply IH.
  - apply Ascii.compare_eq_iff in Hab; subst b. by rewrite Hbc.
  - apply Ascii.compare_eq_iff in Hbc; subst c. by rewrite Hab.
  - by rewrite (ascii_compare_trans Lt a b c Hab Hbc).
Qed.

Lemma string_leb_trans s1 s2 s3 :
  String.leb s1 s2 = true -> String.leb s2 s3 = true ->
  String.leb s1 s3 = true.
Proof.
  unfold String.leb.
  destruct (String.compare s1 s2) eqn:H12; try done;
    destruct (String.compare s2 s3) eqn:H23; try done; intros _ _.
  - apply String.compare_eq_iff in H12, H23; subst.
    by rewrite string_compare_refl.
  - apply String.compare_eq_iff in H12; subst. by rewrite H23.
  - apply String.compare_eq_iff in H23; subst. by rewrite H12.
  - by rewrite (string_compare_lt_trans _ _ _ H12 H23).
Qed.

#[local] Instance key_le_trans : Transitive key_le.
Proof. intros a b c. unfold key_le. apply string_leb_trans. Qed.

#[local] Instance key_le_total : Total key_le.
Proof. intros a b. unfold key_le. apply String.leb_total. Qed.

(** In an object, a key determines its property. *)
Lemma wf_key_inj (o : Obj) (x y : string * Value) :
  wf o -> x ∈ o -> y ∈ o -> x.1 = y.1 -> x = y.
Proof.
  intros Hwf Hx Hy Hk. destruct x as [k v], y as [k' v']. simpl in Hk.
  subst k'. pose proof (get_Some_elem k v o Hwf Hx) as E1.
  pose proof (get_Some_elem k v' o Hwf Hy) as E2. congruence.
Qed.

(** Sorting by key forgets the insertion order of an object. *)
Lemma merge_sort_permutation_eq (P1 P2 : Obj) :
  wf P1 -> P1 ≡ₚ P2 -> merge_sort key_le P1 = merge_sort key_le P2.
Proof.
  intros Hwf Hperm.
  apply (Sorted_unique_strong key_le).
  - intros x1 x2 H1 H2 H12 H21.
    rewrite merge_sort_Permutation in H1.
    rewrite merge_sort_Permutation, <- Hperm in H2.
    apply (wf_key_inj P1); try done.
    by apply String.leb_antisym.
  - apply (Sorted_merge_sort key_le).
  - apply (Sorted_merge_sort key_le).
  - by rewrite !merge_sort_Permutation.
Qed.

(** C9: the cache-key encoder is insensitive to the insertion order of the
    parameters: two parameter objects with the same properties in a
    different insertion order are encoded to the same key, for every url. *)
Theorem encode_insertion_order (url : string) (P1 P2 : Obj) :
  wf P1 -> P1 ≡ₚ P2 -> encode url P1 = encode url P2.
Proof.
  intros Hwf Hperm. unfold encode.
  by rewrite (merge_sort_permutation_eq P1 P2 Hwf Hperm).
Qed.

Lemma encode_insertion_order_witness :
  wf [("page", VNum 1); ("size", VNum 20)] /\
  [("page", VNum 1); ("size", VNum 20)]
    ≡ₚ [("size", VNum 20); ("page", VNum 1)] /\
  encode "/users" [("page", VNum 1); ("size", VNum 20)]
  = encode "/users" [("size", VNum 20); ("page", VNum 1)].
Proof.
  assert (wf [("page", VNum 1); ("size", VNum 20)]) as Hwf.
  { apply (bool_decide_unpack (NoDup ["page"; "size"])). vm_compute. exact I. }
  split; [exact Hwf|]. split; [apply perm_swap|].
  apply encode_insertion_order; [exact Hwf | apply perm_swap].
Defined.

End KeyOrder.

(** ** Runs of the methods *)

Section Runs.
Import JsObject QueriedEntity.
Context {setup : Setup}.

Lemma run_bind {A B} (m : M A) (f : A -> M B) e s :
  (m ≫= f) e s =
    match m e s with
    | (Normal a, s', t) => let '(r, s'', t') := f a e s' in (r, s'', t ++ t')
    | (Thrown msg, s', t) => (Thrown msg, s', t)
    end.
Proof. reflexivity. Qed.

(** A patch applied last decides the fields it mentions. *)
Lemma flush_updated s p :
  pendingState s = [] -> state (flush (updated s p)) = applyPatch (state s) p.
Proof.
  intros Hs. unfold flush, updated.
  destruct batchedUpdates; simpl; rewrite Hs; reflexivity.
Qed.

Lemma preLoaderFunc_updated s p :
  preLoaderFunc (updated s p) = preLoaderFunc s.
Proof. unfold updated. by destruct batchedUpdates. Qed.

Lemma preloadOne_run u p e s :
  preloadOne u p e s =
    if cached e u (spread (params (state s)) p)
    then (Normal [], s, [])
    else (Normal [PThenCatch
                    (collectGarbage u (spread (params (state s)) p)) (ret tt)],
          s, [speculative s u p]).
Proof.
  unfold preloadOne, cached, speculative.
  rewrite run_bind. simpl. rewrite run_bind. simpl.
  destruct (truthy _) eqn:E; simpl; reflexivity.
Qed.

(** The loop of [preload] fetches the predicted params that are not cached,
    in order, and leaves the instance alone. *)
Lemma forEach_preloadOne u l e s :
  exists promises,
    forEach l (preloadOne u) e s =
      (Normal promises, s,
       speculative s u <$>
         filter (fun p => cached e u (spread (params (state s)) p) = false) l).
Proof.
  induction l as [|p l [promises IH]]; simpl.
  - by exists [].
  - rewrite run_bind, preloadOne_run.
    destruct (cached e u (spread (params (state s)) p)) eqn:Hc.
    + exists ([] ++ promises). rewrite run_bind, IH. simpl.
      rewrite filter_cons_False by congruence. by rewrite app_nil_r.
    + eexists. rewrite run_bind, IH. simpl.
      rewrite filter_cons_True by done. by rewrite app_nil_r.
Qed.

(** [preload] in closed form. *)
Lemma preload_run ps u e s :
  exists promises,
    preload ps u e s =
      (Normal promises, s,
       match preLoaderFunc s with
       | None => []
       | Some f =>
           if smartPreload && tooSlow (networkTimer (props e)) then []
           else Predict ps (spread (params (state s)) ps)
                  (metadataCopy
                     (queryMetadata (records (props e) !! encodeAPICall u ps)))
                :: (speculative s u <$>
                      filter
                        (fun p =>
                           cached e u (spread (params (state s)) p) = false)
                        (predicted f e s ps u))
       end).
Proof.
  unfold preload. rewrite run_bind. simpl.
  destruct (preLoaderFunc s) as [f|]; [|by exists []].
  rewrite run_bind. simpl.
  destruct (smartPreload && tooSlow (networkTimer (props e))); [by exists []|].
  rewrite run_bind. simpl. rewrite run_bind. simpl.
  destruct (forEach_preloadOne u (predicted f e s ps u) e s) as [promises H].
  unfold predicted in H. rewrite H. by exists promises.
Qed.

(** [query] in closed form. *)
Lemma query_run ps u initial e s :
  query ps u initial e s =
    (Normal (if shouldLoad (now e) (dataOf e s ps u initial)
             then PThenCatch
                    (queryDone (givenUrl s u) (newParamsOf s ps initial))
                    (queryFailed (oldParamsOf s ps initial))
             else PResolved),
     queried s ps initial,
     (if negb (truthy (dataOf e s ps u initial)) || negb hideLoadIfDataFound
      then [Freeze] else [])
     ++ calls (preload (givenParams s ps) (givenUrl s u) e
                 (queried s ps initial))
     ++ (if shouldLoad (now e) (dataOf e s ps u initial)
         then [directFetch e s ps u initial] else [])).
Proof.
  destruct (preload_run (givenParams s ps) (givenUrl s u) e
              (queried s ps initial)) as [promises Hp].
  unfold query, mbind, M_bind, bind, getState, setState, getProps, getNow.
  cbn beta iota.
  fold (givenParams s ps) (givenUrl s u).
  fold (oldParamsOf s ps initial). fold (newParamsOf s ps initial).
  fold (dataOf e s ps u initial). fold (queried s ps initial).
  unfold directFetch, calls.
  destruct (negb (truthy (dataOf e s ps u initial))
            || negb hideLoadIfDataFound);
    unfold when, call, ret; cbn beta iota; rewrite Hp; cbn beta iota;
    destruct (shouldLoad (now e) (dataOf e s ps u initial));
    cbn [negb snd]; rewrite ?app_nil_r; reflexivity.
Qed.

End Runs.

(** ** The freshness evaluator *)

Section Freshness.
Import JsObject QueriedEntity.
Context {setup : Setup}.

(** C1: [shouldLoad] is true when the key has no record, false when the
    record is the [LOADING] sentinel, false when the record was preloaded at
    [t0] and [t - t0 < preloadValidTime], and true in every other case, so
    also once [t - t0 >= preloadValidTime]. *)
Theorem shouldLoad_cases (t : Z) :
  shouldLoad t None = true /\
  shouldLoad t (Some LOADING) = false /\
  (forall r t0,
      preloadedAt r = Some t0 -> t - t0 < preloadValidTime ->
      shouldLoad t (Some (Loaded r)) = false) /\
  (forall r t0,
      preloadedAt r = Some t0 -> t - t0 >= preloadValidTime ->
      shouldLoad t (Some (Loaded r)) = true) /\
  (forall data,
      shouldLoad t data = false ->
      data = Some LOADING \/
      exists r t0, data = Some (Loaded r) /\ preloadedAt r = Some t0 /\
                   t - t0 < preloadValidTime).
Proof.
  repeat split.
  - intros r t0 H0 Hlt. unfold shouldLoad. rewrite H0.
    destruct (Z.ltb_spec (t - t0) preloadValidTime); [done | lia].
  - intros r t0 H0 Hge. unfold shouldLoad. rewrite H0.
    destruct (Z.ltb_spec (t - t0) preloadValidTime); [lia | done].
  - intros [[|r]|]; simpl; try done; [by left|].
    destruct (preloadedAt r) as [t0|] eqn:H0; [|done].
    destruct (Z.ltb_spec (t - t0) preloadValidTime); [|done].
    intros _. right. by exists r, t0.
Qed.

End Freshness.

Lemma shouldLoad_cases_witness :
  5000 - 0 < @QueriedEntity.preloadValidTime (Demo.userSetup false true) /\
  @QueriedEntity.shouldLoad (Demo.userSetup false true) 5000
    (Some (Demo.response (Some 0))) = false.
Proof.
  split; [reflexivity|].
  apply (proj1 (proj2 (proj2
           (@shouldLoad_cases (Demo.userSetup false true) 5000))))
    with (t0 := 0); reflexivity.
Defined.

(** ** Setup errors *)

Section SetupErrors.
Import JsObject QueriedEntity.
Context {setup : Setup}.

Lemma checkSetup_throws e s :
  url (state s) = None ->
  checkSetup e s = (Thrown ("No url specified for " +:+ entityName), s, []).
Proof.
  intros H. unfold checkSetup, mbind, M_bind, bind, getState.
  cbn beta iota. by rewrite H.
Qed.

(** C7: a mutation invoked before [initialQuery] has set a url throws at
    once, so that no promise is returned, and makes no call: neither a hook
    nor a network call. *)
Theorem mutation_without_url_throws (e : Env) (s : Instance) :
  url (state s) = None ->
  let failure := (Thrown ("No url specified for " +:+ entityName), s, []) in
  (forall entity, create entity e s = failure) /\
  (forall entity, update entity e s = failure) /\
  (forall fs, patch fs e s = failure) /\
  (forall arg, delete arg e s = failure).
Proof.
  intros H failure.
  repeat split; intros x;
    unfold create, update, patch, delete;
    unfold mbind at 1; unfold M_bind, bind;
    by rewrite (checkSetup_throws e s H).
Qed.

End SetupErrors.

Lemma mutation_without_url_throws_witness :
  @QueriedEntity.create (Demo.userSetup false true) [("name", VStr "Ann")]
    (Demo.env [] Demo.idle 0)
    QueriedEntity.initialInstance
  = (QueriedEntity.Thrown "No url specified for user",
     QueriedEntity.initialInstance, []).
Proof.
  apply (proj1 (@mutation_without_url_throws (Demo.userSetup false true)
                  (Demo.env [] Demo.idle 0)
                  QueriedEntity.initialInstance eq_refl)).
Defined.

(** ** Preloading *)

Section Preloading.
Import JsObject QueriedEntity.
Context {setup : Setup}.

Lemma Qgtb_lt (x y : Q) : Qgtb x y = true <-> (y < x)%Q.
Proof.
  unfold Qgtb. rewrite negb_true_iff. split.
  - intros H. apply Qnot_le_lt. intros Hle.
    apply Qle_bool_iff in Hle. congruence.
  - intros H. destruct (Qle_bool x y) eqn:E; [|done].
    apply Qle_bool_iff in E. by apply Qlt_not_le in H.
Qed.

Lemma tooSlow_spec (tm : NetworkTimer) :
  tooSlow tm = true <->
  3 < numberOfCalls tm /\ (smartThresholdTime < average tm)%Q.
Proof.
  unfold tooSlow. rewrite andb_true_iff, Z.ltb_lt, Qgtb_lt. done.
Qed.

(** What [preload] calls once it has decided to plan. *)
Lemma preload_calls_planned f ps u e s :
  preLoaderFunc s = Some f ->
  smartPreload && tooSlow (networkTimer (props e)) = false ->
  calls (preload ps u e s) =
    Predict ps (spread (params (state s)) ps)
      (metadataCopy (queryMetadata (records (props e) !! encodeAPICall u ps)))
    :: (speculative s u <$>
          filter (fun p => cached e u (spread (params (state s)) p) = false)
            (predicted f e s ps u)).
Proof.
  intros Hf Hgate. destruct (preload_run ps u e s) as [l ->].
  unfold calls. simpl. by rewrite Hf, Hgate.
Qed.

Lemma preload_calls_skipped f ps u e s :
  preLoaderFunc s = Some f ->
  smartPreload && tooSlow (networkTimer (props e)) = true ->
  calls (preload ps u e s) = [].
Proof.
  intros Hf Hgate. destruct (preload_run ps u e s) as [l ->].
  unfold calls. simpl. by rewrite Hf, Hgate.
Qed.

Lemma preload_calls_unregistered ps u e s :
  preLoaderFunc s = None -> calls (preload ps u e s) = [].
Proof.
  intros Hf. destruct (preload_run ps u e s) as [l ->].
  unfold calls. simpl. by rewrite Hf.
Qed.

(** Every call of [preload] is the consultation of the preloader or a
    preloading fetch for a key without a record. *)
Lemma preload_calls_shape ps u e s ev :
  ev ∈ calls (preload ps u e s) ->
  (exists a b c, ev = Predict a b c) \/
  (exists p, ev = speculative s u p /\
             cached e u (spread (params (state s)) p) = false).
Proof.
  destruct (preload_run ps u e s) as [l ->]. unfold calls. simpl.
  destruct (preLoaderFunc s) as [f|]; [|by intros ?%elem_of_nil].
  destruct (smartPreload && tooSlow (networkTimer (props e)));
    [by intros ?%elem_of_nil|].
  intros [->|Hin]%elem_of_cons; [left; eauto|].
  right. apply list_elem_of_fmap in Hin as (p & -> & Hp).
  apply list_elem_of_filter in Hp as [Hc _]. eauto.
Qed.

(** C3: in smart mode, with a preloader registered, [preload] does nothing
    at all (the preloader is not consulted and no fetch is made) if and only
    if the network timer has more than three calls and an average above
    [smartThresholdTime]; otherwise it consults the preloader and fetches
    every predicted params whose merged key has no record. *)
Theorem preload_smart_gate (f : Predictor) (ps : Obj) (u : option string)
  (e : Env) (s : Instance) :
  preLoaderFunc s = Some f ->
  smartPreload = true ->
  let tm := networkTimer (props e) in
  let slow := 3 < numberOfCalls tm /\ (smartThresholdTime < average tm)%Q in
  (calls (preload ps u e s) = [] <-> slow) /\
  (~ slow ->
   calls (preload ps u e s) =
     Predict ps (spread (params (state s)) ps)
       (metadataCopy (queryMetadata (records (props e) !! encodeAPICall u ps)))
     :: (speculative s u <$>
           filter (fun p => cached e u (spread (params (state s)) p) = false)
             (predicted f e s ps u))).
Proof.
  intros Hf Hsmart tm slow.
  assert (tooSlow tm = true <-> slow) as Hslow by apply tooSlow_spec.
  destruct (tooSlow tm) eqn:Hts.
  - assert slow as Hs by by apply Hslow.
    split; [|done]. split; [done|]. intros _.
    apply (preload_calls_skipped f); [done|]. subst tm. by rewrite Hsmart, Hts.
  - assert (~ slow) as Hs by (intros H; apply Hslow in H; done).
    assert (smartPreload && tooSlow (networkTimer (props e)) = false) as Hgate.
    { subst tm. by rewrite Hsmart, Hts. }
    split.
    + split; [|done]. by rewrite (preload_calls_planned f).
    + intros _. by apply preload_calls_planned.
Qed.

End Preloading.

Lemma preload_smart_gate_witness :
  QueriedEntity.preLoaderFunc (Demo.onPage1 (Some Demo.nextPage))
    = Some Demo.nextPage /\
  @QueriedEntity.smartPreload (Demo.userSetup true true) = true /\
  QueriedEntity.calls
    (@QueriedEntity.preload (Demo.userSetup true true) (Demo.page 1) Demo.users
       (Demo.env [] (Demo.timer (400 # 1) 4) 0)
       (Demo.onPage1 (Some Demo.nextPage))) = [].
Proof.
  split; [reflexivity|]. split; [reflexivity|].
  apply (proj1 (@preload_smart_gate (Demo.userSetup true true) Demo.nextPage
                  (Demo.page 1) Demo.users
                  (Demo.env [] (Demo.timer (400 # 1) 4) 0)
                  (Demo.onPage1 (Some Demo.nextPage)) eq_refl eq_refl)).
  split; reflexivity.
Defined.

(** The scenario of the specification at an average of 200 ms: the next
    page, which is not cached, is fetched. *)
Example preload_fast_network :
  QueriedEntity.calls
    (@QueriedEntity.preload (Demo.userSetup true true) (Demo.page 1) Demo.users
       (Demo.env [] (Demo.timer (200 # 1) 4) 0)
       (Demo.onPage1 (Some Demo.nextPage)))
  = [QueriedEntity.Predict (Demo.page 1) (Demo.page 1) QueriedEntity.emptyEntry;
     QueriedEntity.QueryEntities "user" Demo.users (Demo.page 2) true true
       true].
Proof. vm_compute. reflexivity. Qed.

(** ** Which fetches a call makes *)

Section Fetches.
Import JsObject QueriedEntity.
Context {setup : Setup}.

Lemma truthy_false (d : option CacheRecord) : truthy d = false <-> d = None.
Proof. destruct d; simpl; split; done. Qed.

Lemma params_queried_preload_shape ps u initial e s ev :
  ev ∈ calls (preload (givenParams s ps) (givenUrl s u) e
                (queried s ps initial)) ->
  ev <> directFetch e s ps u initial.
Proof.
  intros [(a & b & c & ->) | (p & -> & _)]%preload_calls_shape; done.
Qed.

(** The calls of [query], sorted out: the direct fetch is among them exactly
    when [shouldLoad] asks for it. *)
Lemma query_direct_fetch ps u initial e s :
  directFetch e s ps u initial ∈ calls (query ps u initial e s) <->
  shouldLoad (now e) (dataOf e s ps u initial) = true.
Proof.
  rewrite query_run. unfold calls at 1. cbn [snd].
  rewrite !elem_of_app. split.
  - intros [Hin | [Hin | Hin]].
    + destruct (_ || _); [|by apply elem_of_nil in Hin].
      by apply list_elem_of_singleton in Hin.
    + by apply params_queried_preload_shape in Hin.
    + destruct (shouldLoad _ _); [done | by apply elem_of_nil in Hin].
  - intros ->. right; right. by apply list_elem_of_singleton.
Qed.

(** C5, as the code has it: the direct path of [query] fetches exactly when
    [shouldLoad] is true for the record of the merged params, while the
    loop of [preload] fetches a predicted params exactly when its merged
    key has no record at all; [preload] does not consult [shouldLoad]. *)
Theorem fetch_decisions (e : Env) (s : Instance) :
  (forall ps u initial,
      directFetch e s ps u initial ∈ calls (query ps u initial e s) <->
      shouldLoad (now e) (dataOf e s ps u initial) = true) /\
  (forall f ps u p,
      preLoaderFunc s = Some f ->
      smartPreload && tooSlow (networkTimer (props e)) = false ->
      p ∈ predicted f e s ps u ->
      (speculative s u p ∈ calls (preload ps u e s) <->
       records (props e) !! encodeAPICall u (spread (params (state s)) p)
         = None)).
Proof.
  split; [intros; apply query_direct_fetch|].
  intros f ps u p Hf Hgate Hp.
  rewrite (preload_calls_planned f) by done.
  rewrite <- truthy_false. fold (cached e u (spread (params (state s)) p)).
  split.
  - intros [Heq | Hin]%elem_of_cons; [done|].
    apply list_elem_of_fmap in Hin as (p' & Heq & Hp').
    apply list_elem_of_filter in Hp' as [Hc _].
    unfold speculative in Heq. injection Heq as Heq. by rewrite Heq.
  - intros Hc. right. apply list_elem_of_fmap. exists p. split; [done|].
    by apply list_elem_of_filter.
Qed.

End Fetches.

Lemma fetch_decisions_witness :
  QueriedEntity.preLoaderFunc (Demo.onPage1 (Some Demo.nextPage))
    = Some Demo.nextPage /\
  QueriedEntity.speculative (setup := Demo.userSetup false true)
    (Demo.onPage1 (Some Demo.nextPage)) Demo.users (Demo.page 2)
  ∈ QueriedEntity.calls
      (@QueriedEntity.preload (Demo.userSetup false true) (Demo.page 1)
         Demo.users (Demo.env [] Demo.idle 0)
         (Demo.onPage1 (Some Demo.nextPage))).
Proof.
  split; [reflexivity|].
  apply (proj2 (@fetch_decisions (Demo.userSetup false true)
                  (Demo.env [] Demo.idle 0)
                  (Demo.onPage1 (Some Demo.nextPage)))
           Demo.nextPage (Demo.page 1) Demo.users (Demo.page 2)
           eq_refl eq_refl).
  - vm_compute. left.
  - vm_compute. reflexivity.
Defined.

(** C5 as stated fails: a record preloaded at time 0 sits at the key of page
    2; at time 20000 its validity window of 10000 ms is over, so
    [shouldLoad] asks for a fetch, but [preload] finds a record and makes no
    fetch for page 2. *)
Lemma preload_skips_expired_record :
  Demo.page 2
  ∈ QueriedEntity.predicted (setup := Demo.userSetup false true) Demo.nextPage
      (Demo.env [("/users?page=2", Demo.response (Some 0))] Demo.idle 20000)
      (Demo.onPage1 (Some Demo.nextPage)) (Demo.page 1) Demo.users /\
  ~ (QueriedEntity.speculative (setup := Demo.userSetup false true)
       (Demo.onPage1 (Some Demo.nextPage)) Demo.users (Demo.page 2)
     ∈ QueriedEntity.calls
         (@QueriedEntity.preload (Demo.userSetup false true) (Demo.page 1)
            Demo.users
            (Demo.env [("/users?page=2", Demo.response (Some 0))]
               Demo.idle 20000)
            (Demo.onPage1 (Some Demo.nextPage)))
     <->
     @QueriedEntity.shouldLoad (Demo.userSetup false true) 20000
       (QueriedEntity.records
          (Demo.bucket [("/users?page=2", Demo.response (Some 0))] Demo.idle)
        !! @QueriedEntity.encodeAPICall (Demo.userSetup false true) Demo.users
             (JsObject.spread (Demo.page 1) (Demo.page 2)))
     = true).
Proof.
  split; [vm_compute; left|].
  intros [_ H].
  assert (QueriedEntity.speculative (setup := Demo.userSetup false true)
            (Demo.onPage1 (Some Demo.nextPage)) Demo.users (Demo.page 2)
          ∈ [QueriedEntity.Predict (Demo.page 1) (Demo.page 1)
               QueriedEntity.emptyEntry]) as Hin.
  { apply H. vm_compute. reflexivity. }
  apply list_elem_of_singleton in Hin. discriminate Hin.
Qed.

(** ** The loading sentinel *)

Section Sentinel.
Import JsObject QueriedEntity.
Context {setup : Setup}.

(** A write of the sentinel is a fetch that asks to mark its key. *)
Lemma markLoadingWrite_other b ev k :
  (forall n u ps ip sm,
      ev = QueryEntities n u ps true ip sm -> encodeAPICall u ps <> k) ->
  markLoadingWrite b ev !! k = b !! k.
Proof.
  intros H. destruct ev as [| |n u ps [] ip sm| | | | | |]; simpl; try done.
  apply lookup_insert_ne. by eapply H.
Qed.

Lemma dispatched_frame (b : gmap string CacheRecord) t k :
  (forall ev n u ps ip sm,
      ev ∈ t -> ev = QueryEntities n u ps true ip sm ->
      encodeAPICall u ps <> k) ->
  fold_left markLoadingWrite t b !! k = b !! k.
Proof.
  revert b. induction t as [|ev t IH]; intros b H; simpl; [done|].
  rewrite IH.
  - apply markLoadingWrite_other. intros. eapply (H ev); [by left | done].
  - intros ev' n u ps ip sm Hin. apply H. by right.
Qed.

Lemma dispatched_last (b : gmap string CacheRecord) t n u ps ip sm :
  fold_left markLoadingWrite (t ++ [QueryEntities n u ps true ip sm]) b
    !! encodeAPICall u ps = Some LOADING.
Proof. rewrite fold_left_app. simpl. apply lookup_insert_eq. Qed.

(** The fetches of [query] that ask to mark their key are for keys that
    have no record in the props. *)
Lemma query_marks_only_absent ps u initial e s n u' ps' ip sm :
  QueryEntities n u' ps' true ip sm ∈ calls (query ps u initial e s) ->
  records (props e) !! encodeAPICall u' ps' = None.
Proof.
  rewrite query_run. unfold calls at 1. cbn [snd].
  rewrite !elem_of_app. intros [Hin | [Hin | Hin]].
  - destruct (_ || _); [|by apply elem_of_nil in Hin].
    by apply list_elem_of_singleton in Hin.
  - apply preload_calls_shape in Hin as [(a & b & c & ?) | (p & Heq & Hc)];
      [done|].
    unfold speculative in Heq. injection Heq as _ -> -> _ _.
    by apply truthy_false.
  - destruct (shouldLoad _ _); [|by apply elem_of_nil in Hin].
    apply list_elem_of_singleton in Hin. unfold directFetch in Hin.
    injection Hin as _ -> -> Hm _ _. symmetry in Hm.
    apply negb_true_iff, truthy_false in Hm. exact Hm.
Qed.

(** C10: when the key of the merged params has a record that [shouldLoad]
    wants refreshed, [query] makes its fetch with [markLoading = false];
    every fetch of [query] with [markLoading = true] is for a key without a
    record; so dispatching the calls of [query] leaves every record of the
    bucket as it was, and the sentinel goes only to keys that had none. *)
Theorem query_refresh_keeps_record (ps : option Obj) (u : option string)
  (initial : bool) (e : Env) (s : Instance) :
  (forall r,
      dataOf e s ps u initial = Some r ->
      shouldLoad (now e) (Some r) = true ->
      QueryEntities entityName (givenUrl s u) (newParamsOf s ps initial)
        false false smartPreload ∈ calls (query ps u initial e s)) /\
  (forall n u' ps' ip sm,
      QueryEntities n u' ps' true ip sm ∈ calls (query ps u initial e s) ->
      records (props e) !! encodeAPICall u' ps' = None) /\
  (forall k r,
      records (props e) !! k = Some r ->
      records (dispatched (props e) (calls (query ps u initial e s))) !! k
        = Some r).
Proof.
  split; [|split].
  - intros r Hr Hload.
    pose proof (proj2 (query_direct_fetch ps u initial e s)) as H.
    unfold directFetch in H. rewrite Hr in H. simpl in H. by apply H.
  - apply query_marks_only_absent.
  - intros k r Hk. unfold dispatched. simpl.
    rewrite dispatched_frame; [done|].
    intros ev n u' ps' ip sm Hin -> Heq.
    apply query_marks_only_absent in Hin. congruence.
Qed.

End Sentinel.

Lemma query_refresh_keeps_record_witness :
  QueriedEntity.dataOf (setup := Demo.userSetup false true)
    (Demo.env [("/users?page=1", Demo.response None)] Demo.idle 0)
    (Demo.onPage1 None) (Some (Demo.page 1)) None false
    = Some (Demo.response None) /\
  QueriedEntity.QueryEntities "user" Demo.users (Demo.page 1) false false false
  ∈ QueriedEntity.calls
      (@QueriedEntity.query (Demo.userSetup false true) (Some (Demo.page 1))
         None false
         (Demo.env [("/users?page=1", Demo.response None)] Demo.idle 0)
         (Demo.onPage1 None)).
Proof.
  split; [vm_compute; reflexivity|].
  apply (proj1 (@query_refresh_keeps_record (Demo.userSetup false true)
                  (Some (Demo.page 1)) None false
                  (Demo.env [("/users?page=1", Demo.response None)]
                     Demo.idle 0)
                  (Demo.onPage1 None))
           (Demo.response None)).
  - vm_compute. reflexivity.
  - reflexivity.
Defined.

(** ** State after a turn *)

Section Turns.
Import JsObject QueriedEntity.
Context {setup : Setup}.

Lemma consistent_fresh s : pendingState s = [] -> consistent s.
Proof. by intros H _. Qed.

Lemma consistent_updated s p : consistent s -> consistent (updated s p).
Proof.
  unfold consistent, updated. intros H Hb. rewrite Hb. simpl. by apply H.
Qed.

Lemma flush_fresh s : pendingState s = [] -> state (flush s) = state s.
Proof. intros H. unfold flush. simpl. by rewrite H. Qed.

Lemma flush_updated_consistent s p :
  consistent s -> state (flush (updated s p)) = applyPatch (state (flush s)) p.
Proof.
  unfold consistent, flush, updated. intros H.
  destruct batchedUpdates; simpl.
  - by rewrite fold_left_app.
  - by rewrite H.
Qed.

Lemma calls_turn {A} (m : M A) e s : calls (turn m e s) = calls (m e s).
Proof. unfold turn, calls. by destruct (m e s) as [[r s'] t]. Qed.

Lemma result_turn {A} (m : M A) e s : result (turn m e s) = result (m e s).
Proof. unfold turn, result. by destruct (m e s) as [[r s'] t]. Qed.

Lemma after_turn {A} (m : M A) e s :
  after (turn m e s) = flush (after (m e s)).
Proof. unfold turn, after. by destruct (m e s) as [[r s'] t]. Qed.

Lemma initialQuery_run u ps e s :
  initialQuery u ps e s =
    query (Some (default [] ps)) u true e
      (updated s {| p_url := Some u; p_params := None;
                    p_loadingData := None |}).
Proof.
  unfold initialQuery, mbind, M_bind, bind, setState. cbn beta iota.
  by destruct (query _ _ _ _ _) as [[r s'] t].
Qed.

(** What [query] works with on a well-formed object. *)
Lemma newParamsOf_initial s ps :
  wf ps -> newParamsOf s (Some ps) true = ps.
Proof.
  intros Hwf. unfold newParamsOf, oldParamsOf, givenParams. simpl.
  rewrite copy_wf by done. by apply spread_self.
Qed.

Lemma newParamsOf_same s ps :
  wf ps -> params (state s) = ps -> newParamsOf s (Some ps) false = ps.
Proof.
  intros Hwf Heq. unfold newParamsOf, oldParamsOf, givenParams. simpl.
  rewrite Heq, copy_wf by done. by apply spread_self.
Qed.

(** The state once a turn of [query] is over. *)
Lemma state_after_query ps u initial e s :
  consistent s ->
  state (after (turn (query ps u initial) e s)) =
    {| url := url (state (flush s));
       params := newParamsOf s ps initial;
       loadingData := true |}.
Proof.
  intros Hs. rewrite after_turn, query_run. unfold after. cbn [fst snd].
  unfold queried. by rewrite flush_updated_consistent.
Qed.

End Turns.

(** ** A query for a key in flight *)

Section InFlight.
Import JsObject QueriedEntity.
Context {setup : Setup}.

Lemma fetches_nil_no_fetch t :
  (forall ev, ev ∈ t -> isFetch ev = false) -> fetches t = [].
Proof.
  intros H. unfold fetches. induction t as [|ev t IH]; [done|].
  rewrite filter_cons_False.
  - apply IH. intros ev' Hin. apply H. by right.
  - rewrite (H ev); [done | by left].
Qed.

(** With the sentinel at the key of the merged params, [query] resolves at
    once and calls only what [preload] calls. *)
Lemma query_on_loading ps u initial e s :
  dataOf e s ps u initial = Some LOADING ->
  result (query ps u initial e s) = Normal PResolved /\
  calls (query ps u initial e s) =
    (if hideLoadIfDataFound then [] else [Freeze])
    ++ calls (preload (givenParams s ps) (givenUrl s u) e
                (queried s ps initial)).
Proof.
  intros Hd. rewrite query_run. unfold result, calls at 1.
  cbn [fst snd]. rewrite Hd. simpl. rewrite app_nil_r.
  by destruct hideLoadIfDataFound.
Qed.

Lemma query_on_loading_fetches ps u initial e s ev :
  dataOf e s ps u initial = Some LOADING ->
  ev ∈ calls (query ps u initial e s) ->
  isFetch ev = true ->
  exists p,
    ev = speculative (queried s ps initial) (givenUrl s u) p /\
    records (props e)
      !! encodeAPICall (givenUrl s u)
           (spread (params (state (queried s ps initial))) p) = None.
Proof.
  intros Hd Hin Hf. destruct (query_on_loading ps u initial e s Hd) as [_ Hc].
  rewrite Hc in Hin. apply elem_of_app in Hin as [Hin | Hin].
  - destruct hideLoadIfDataFound; [by apply elem_of_nil in Hin|].
    apply list_elem_of_singleton in Hin. by subst.
  - apply preload_calls_shape in Hin as [(a & b & c & ->) | (p & -> & Hp)];
      [done|].
    exists p. split; [done|]. by apply truthy_false.
Qed.

(** C2, as the code has it: for a key whose record is the [LOADING]
    sentinel, [query] returns a promise that is already resolved, and its
    direct path makes no fetch; the fetches of the call are the preloading
    fetches of a registered preloader, each for a key without a record, so
    none is for the key in flight, and there is none at all when no
    preloader is registered.  Hence an [initialQuery] with no cached data
    and no preloader makes exactly one fetch, with [markLoading = true],
    and once that fetch is dispatched a [query] for the same params returns
    a resolved promise and makes no fetch for that key.  The instance is
    any the component can be in: nothing is left pending unless React
    batches. *)
Theorem query_in_flight (e : Env) (s : Instance) :
  (forall ps u initial,
      dataOf e s ps u initial = Some LOADING ->
      result (query ps u initial e s) = Normal PResolved /\
      (forall ev,
          ev ∈ calls (query ps u initial e s) -> isFetch ev = true ->
          fetchKey ev
            <> Some (encodeAPICall (givenUrl s u) (newParamsOf s ps initial)) /\
          exists p,
            ev = speculative (queried s ps initial) (givenUrl s u) p /\
            records (props e)
              !! encodeAPICall (givenUrl s u)
                   (spread (params (state (queried s ps initial))) p)
              = None) /\
      (preLoaderFunc s = None ->
       fetches (calls (query ps u initial e s)) = [])) /\
  (forall ps v,
      wf ps ->
      records (props e) !! encodeAPICall (Some v) ps = None ->
      (preLoaderFunc s = None ->
       calls (turn (initialQuery (Some v) (Some ps)) e s) =
         [Freeze;
          QueryEntities entityName (Some v) ps true false smartPreload]) /\
      (consistent s ->
       forall t2,
         let e2 :=
           {| props :=
                dispatched (props e)
                  (calls (turn (initialQuery (Some v) (Some ps)) e s));
              now := t2 |} in
         let s2 := after (turn (initialQuery (Some v) (Some ps)) e s) in
         result (turn (query (Some ps) None false) e2 s2)
           = Normal PResolved /\
         forall ev,
           ev ∈ calls (turn (query (Some ps) None false) e2 s2) ->
           fetchKey ev <> Some (encodeAPICall (Some v) ps))).
Proof.
  split.
  - intros ps u initial Hd. split; [by apply query_on_loading|]. split.
    + intros ev Hin Hf.
      destruct (query_on_loading_fetches ps u initial e s ev Hd Hin Hf)
        as (p & -> & Hp).
      split; [|by exists p].
      unfold speculative, fetchKey. intros [= Heq].
      rewrite Heq in Hp. unfold dataOf in Hd. congruence.
    + intros Hnone. apply fetches_nil_no_fetch. intros ev Hin.
      destruct (query_on_loading ps u initial e s Hd) as [_ Hc].
      rewrite Hc, preload_calls_unregistered, app_nil_r in Hin.
      * destruct hideLoadIfDataFound; [by apply elem_of_nil in Hin|].
        apply list_elem_of_singleton in Hin. by subst.
      * unfold queried. by rewrite preLoaderFunc_updated.
  - intros ps v Hwf Hnone.
    set (s0 := updated s {| p_url := Some (Some v); p_params := None;
                            p_loadingData := None |}).
    assert (dataOf e s0 (Some ps) (Some v) true = None) as Hd.
    { unfold dataOf. rewrite newParamsOf_initial by done. exact Hnone. }
    assert (calls (turn (initialQuery (Some v) (Some ps)) e s) =
              [Freeze]
              ++ calls (preload ps (Some v) e (queried s0 (Some ps) true))
              ++ [QueryEntities entityName (Some v) ps true false
                    smartPreload]) as Hcalls.
    { rewrite calls_turn, initialQuery_run. fold s0. simpl.
      rewrite query_run. unfold calls at 1. cbn [snd].
      unfold directFetch.
      match goal with
      | |- context [dataOf ?a ?b ?c ?d ?i] =>
          replace (dataOf a b c d i) with (@None CacheRecord)
            by (symmetry; exact Hd)
      end.
      simpl. rewrite newParamsOf_initial by done. reflexivity. }
    split.
    + intros Hpl. rewrite Hcalls, preload_calls_unregistered; [done|].
      unfold queried, s0. by rewrite !preLoaderFunc_updated.
    + intros Hs t2.
      set (r1 := turn (initialQuery (Some v) (Some ps)) e s).
      set (e2 := {| props := dispatched (props e) (calls r1); now := t2 |}).
      cbv zeta.
      assert (state (after r1) =
                {| url := Some v; params := ps; loadingData := true |}) as Hst.
      { unfold r1. rewrite after_turn, initialQuery_run. fold s0.
        rewrite <- after_turn, state_after_query.
        - rewrite newParamsOf_initial by done. f_equal.
          unfold s0. by rewrite flush_updated_consistent.
        - by apply consistent_updated. }
      assert (newParamsOf (after r1) (Some ps) false = ps) as Hnew.
      { apply newParamsOf_same; [done | by rewrite Hst]. }
      assert (givenUrl (after r1) None = Some v) as Hurl.
      { unfold givenUrl. by rewrite Hst. }
      assert (dataOf e2 (after r1) (Some ps) None false = Some LOADING) as Hd2.
      { unfold dataOf. rewrite Hnew, Hurl. unfold e2, dispatched. simpl.
        fold r1 in Hcalls. rewrite Hcalls, app_assoc.
        apply dispatched_last. }
      split.
      { rewrite result_turn.
        by apply (query_on_loading (Some ps) None false e2 (after r1)). }
      intros ev. rewrite calls_turn. intros Hin Hkey.
      assert (isFetch ev = true) as Hf.
      { destruct ev; simpl in Hkey; done. }
      destruct (query_on_loading_fetches _ _ _ _ _ ev Hd2 Hin Hf)
        as (p & -> & Hp).
      unfold speculative, fetchKey in Hkey. injection Hkey as Hkey.
      unfold givenUrl in Hp, Hkey. cbn iota in Hp, Hkey. rewrite Hkey in Hp.
      unfold dataOf in Hd2. rewrite Hnew, Hurl in Hd2. congruence.
Qed.

End InFlight.

Lemma query_in_flight_witness :
  JsObject.wf (Demo.page 1) /\
  QueriedEntity.records (QueriedEntity.props (Demo.env [] Demo.idle 0))
    !! @QueriedEntity.encodeAPICall (Demo.userSetup false true) Demo.users
         (Demo.page 1) = None /\
  QueriedEntity.preLoaderFunc QueriedEntity.initialInstance = None /\
  QueriedEntity.calls
    (QueriedEntity.turn
       (@QueriedEntity.initialQuery (Demo.userSetup false true) Demo.users
          (Some (Demo.page 1)))
       (Demo.env [] Demo.idle 0) QueriedEntity.initialInstance)
  = [QueriedEntity.Freeze;
     QueriedEntity.QueryEntities "user" Demo.users (Demo.page 1) true false
       false].
Proof.
  assert (JsObject.wf (Demo.page 1)) as Hwf.
  { apply (bool_decide_unpack (NoDup ["page"])). vm_compute. exact I. }
  split; [exact Hwf|]. split; [reflexivity|]. split; [reflexivity|].
  apply (proj1 (proj2 (@query_in_flight (Demo.userSetup false true)
                         (Demo.env [] Demo.idle 0)
                         QueriedEntity.initialInstance)
                  (Demo.page 1) "/users" Hwf eq_refl)).
  reflexivity.
Defined.

(** C2 as stated fails: page 1 is in flight and a preloader predicts the
    next page; [query({page: 1})] then calls [queryEntities], for page 2. *)
Lemma query_in_flight_still_preloads :
  QueriedEntity.dataOf (setup := Demo.userSetup false true)
    (Demo.env [("/users?page=1", QueriedEntity.LOADING)] Demo.idle 0)
    (Demo.onPage1 (Some Demo.nextPage)) (Some (Demo.page 1)) None false
    = Some QueriedEntity.LOADING /\
  QueriedEntity.fetches
    (QueriedEntity.calls
       (@QueriedEntity.query (Demo.userSetup false true) (Some (Demo.page 1))
          None false
          (Demo.env [("/users?page=1", QueriedEntity.LOADING)] Demo.idle 0)
          (Demo.onPage1 (Some Demo.nextPage))))
  <> [].
Proof. split; [vm_compute; reflexivity|]. vm_compute. discriminate. Qed.

(** ** The active params *)

Section ActiveParams.
Import JsObject QueriedEntity.
Context {setup : Setup}.

Lemma newParamsOf_merge s ps k :
  wf (params (state s)) -> wf ps ->
  get k (newParamsOf s (Some ps) false) =
    match get k ps with
    | Some v => Some v
    | None => get k (params (state s))
    end.
Proof.
  intros Hs Hps. unfold newParamsOf, oldParamsOf, givenParams. simpl.
  rewrite copy_wf by done. by apply get_spread.
Qed.

(** The only fetch of [query] that is not a preload carries the merged
    params. *)
Lemma query_direct_params ps u initial e s n u' ps' ml sm :
  QueryEntities n u' ps' ml false sm ∈ calls (query ps u initial e s) ->
  ps' = newParamsOf s ps initial.
Proof.
  rewrite query_run. unfold calls at 1. cbn [snd].
  rewrite !elem_of_app. intros [Hin | [Hin | Hin]].
  - destruct (_ || _); [|by apply elem_of_nil in Hin].
    by apply list_elem_of_singleton in Hin.
  - apply preload_calls_shape in Hin as [(a & b & c & ?) | (p & Heq & _)];
      [done|]. unfold speculative in Heq. done.
  - destruct (shouldLoad _ _); [|by apply elem_of_nil in Hin].
    apply list_elem_of_singleton in Hin. unfold directFetch in Hin.
    by injection Hin as _ _ -> _ _.
Qed.

(** C8: a query that is not initial works with the shallow merge of the
    given params over the active ones (a key of the given params takes its
    new value, any other key keeps its old one); an initial query works
    with the given params alone, whatever the active ones were.  These
    params become the active ones and are the ones fetched.  The instance
    is any the component can be in, also one with updates pending in a
    batch: the active params are those [this.state.params] reads. *)
Theorem query_effective_params (ps : Obj) (u : option string) (e : Env)
  (s : Instance) :
  wf (params (state s)) -> wf ps -> consistent s ->
  (forall k,
      get k (params (state (after (turn (query (Some ps) u false) e s)))) =
        match get k ps with
        | Some v => Some v
        | None => get k (params (state s))
        end) /\
  params (state (after (turn (query (Some ps) u true) e s))) = ps /\
  (forall initial n u' ps' ml sm,
      QueryEntities n u' ps' ml false sm
        ∈ calls (turn (query (Some ps) u initial) e s) ->
      ps' = params (state (after (turn (query (Some ps) u initial) e s)))).
Proof.
  intros Hs Hps Hpend.
  assert (forall initial,
             params (state (after (turn (query (Some ps) u initial) e s)))
             = newParamsOf s (Some ps) initial) as Hafter.
  { intros initial. by rewrite state_after_query. }
  split; [|split].
  - intros k. rewrite Hafter. by apply newParamsOf_merge.
  - rewrite Hafter. by apply newParamsOf_initial.
  - intros initial n u' ps' ml sm. rewrite calls_turn, Hafter.
    apply query_direct_params.
Qed.

(** The reaction to a failed fetch, on any instance it finds. *)
Lemma queryFailed_run oldParams e s :
  queryFailed oldParams e s =
    (Normal tt,
     updated s {| p_url := None; p_params := Some oldParams;
                  p_loadingData := Some false |},
     [Unfreeze]).
Proof. reflexivity. Qed.

(** C4, as the code has it: when the fetch of a [query] call fails, the
    reaction clears [loadingData], calls [unfreeze] and fulfils the promise
    that [query] returned, so the failure does not reach the caller; the
    params go back to their value just before the call when the call is not
    initial, whatever happened to them in between, and an initial query
    leaves the given params in place. *)
Theorem query_failure_recovery (ps : option Obj) (u : option string)
  (initial : bool) (e e' : Env) (s s' : Instance) :
  shouldLoad (now e) (dataOf e s ps u initial) = true ->
  wf (params (state s)) -> wf (givenParams s ps) -> pendingState s' = [] ->
  let r := turn (settle (returned (turn (query ps u initial) e s)) Rejected)
             e' s' in
  result r = Normal Fulfilled /\
  calls r = [Unfreeze] /\
  loadingData (state (after r)) = false /\
  url (state (after r)) = url (state s') /\
  params (state (after r)) =
    if initial then givenParams s ps else params (state s).
Proof.
  intros Hload Hs Hps Hpend.
  assert (returned (turn (query ps u initial) e s) =
            PThenCatch (queryDone (givenUrl s u) (newParamsOf s ps initial))
              (queryFailed (oldParamsOf s ps initial))) as ->.
  { unfold returned. rewrite result_turn, query_run. unfold result.
    cbn [fst]. by rewrite Hload. }
  cbv zeta. unfold settle, react, turn. rewrite queryFailed_run.
  unfold result, calls, after. cbn [fst snd].
  rewrite flush_updated by done. unfold applyPatch. simpl.
  repeat split. unfold oldParamsOf.
  destruct initial; by rewrite copy_wf.
Qed.

End ActiveParams.

(** The call that [initialQuery] makes under batching, with the update of
    the url still pending. *)
Lemma query_effective_params_witness :
  JsObject.wf
    (QueriedEntity.params
       (QueriedEntity.state
          (QueriedEntity.updated (setup := Demo.userSetup false true)
             QueriedEntity.initialInstance
             {| QueriedEntity.p_url := Some Demo.users;
                QueriedEntity.p_params := None;
                QueriedEntity.p_loadingData := None |}))) /\
  JsObject.wf (Demo.page 1) /\
  QueriedEntity.consistent (setup := Demo.userSetup false true)
    (QueriedEntity.updated (setup := Demo.userSetup false true)
       QueriedEntity.initialInstance
       {| QueriedEntity.p_url := Some Demo.users;
          QueriedEntity.p_params := None;
          QueriedEntity.p_loadingData := None |}) /\
  QueriedEntity.pendingState
    (QueriedEntity.updated (setup := Demo.userSetup false true)
       QueriedEntity.initialInstance
       {| QueriedEntity.p_url := Some Demo.users;
          QueriedEntity.p_params := None;
          QueriedEntity.p_loadingData := None |}) <> [] /\
  QueriedEntity.params
    (QueriedEntity.state
       (QueriedEntity.after
          (QueriedEntity.turn
             (@QueriedEntity.query (Demo.userSetup false true)
                (Some (Demo.page 1)) Demo.users true)
             (Demo.env [] Demo.idle 0)
             (QueriedEntity.updated (setup := Demo.userSetup false true)
                QueriedEntity.initialInstance
                {| QueriedEntity.p_url := Some Demo.users;
                   QueriedEntity.p_params := None;
                   QueriedEntity.p_loadingData := None |}))))
  = Demo.page 1.
Proof.
  assert (JsObject.wf []) as H1 by apply NoDup_nil_2.
  assert (JsObject.wf (Demo.page 1)) as H2.
  { apply (bool_decide_unpack (NoDup ["page"])). vm_compute. exact I. }
  assert (QueriedEntity.consistent (setup := Demo.userSetup false true)
            (QueriedEntity.updated (setup := Demo.userSetup false true)
               QueriedEntity.initialInstance
               {| QueriedEntity.p_url := Some Demo.users;
                  QueriedEntity.p_params := None;
                  QueriedEntity.p_loadingData := None |})) as H3.
  { intros H. discriminate H. }
  split; [exact H1|]. split; [exact H2|]. split; [exact H3|].
  split; [discriminate|].
  exact (proj1 (proj2
           (@query_effective_params (Demo.userSetup false true)
              (Demo.page 1) Demo.users (Demo.env [] Demo.idle 0)
              (QueriedEntity.updated (setup := Demo.userSetup false true)
                 QueriedEntity.initialInstance
                 {| QueriedEntity.p_url := Some Demo.users;
                    QueriedEntity.p_params := None;
                    QueriedEntity.p_loadingData := None |})
              H1 H2 H3))).
Defined.

Lemma query_failure_recovery_witness :
  QueriedEntity.params
    (QueriedEntity.state
       (QueriedEntity.after
          (QueriedEntity.turn
             (QueriedEntity.settle
                (QueriedEntity.returned
                   (QueriedEntity.turn
                      (@QueriedEntity.query (Demo.userSetup false true)
                         (Some (Demo.page 2)) None false)
                      (Demo.env [] Demo.idle 0) (Demo.onPage1 None)))
                QueriedEntity.Rejected)
             (Demo.env [] Demo.idle 50) (Demo.onPage1 None))))
  = Demo.page 1.
Proof.
  assert (JsObject.wf (Demo.page 1)) as H1.
  { apply (bool_decide_unpack (NoDup ["page"])). vm_compute. exact I. }
  assert (JsObject.wf (Demo.page 2)) as H2.
  { apply (bool_decide_unpack (NoDup ["page"])). vm_compute. exact I. }
  exact (proj2 (proj2 (proj2 (proj2
           (@query_failure_recovery (Demo.userSetup false true)
              (Some (Demo.page 2)) None false (Demo.env [] Demo.idle 0)
              (Demo.env [] Demo.idle 50) (Demo.onPage1 None)
              (Demo.onPage1 None) eq_refl H1 H2 eq_refl))))).
Defined.

(** C4 as stated fails for an initial query: on a fresh component the params
    are [{}]; after [initialQuery("/users", {page: 1})] whose fetch fails
    they are [{page: 1}]. *)
Lemma initial_query_failure_keeps_new_params :
  QueriedEntity.fetches
    (QueriedEntity.calls
       (QueriedEntity.turn
          (@QueriedEntity.initialQuery (Demo.userSetup false true) Demo.users
             (Some (Demo.page 1)))
          (Demo.env [] Demo.idle 0) QueriedEntity.initialInstance))
  = [QueriedEntity.QueryEntities "user" Demo.users (Demo.page 1) true false
       false] /\
  QueriedEntity.params (QueriedEntity.state QueriedEntity.initialInstance)
    = [] /\
  QueriedEntity.params
    (QueriedEntity.state
       (QueriedEntity.after
          (QueriedEntity.turn
             (QueriedEntity.settle
                (QueriedEntity.returned
                   (QueriedEntity.turn
                      (@QueriedEntity.initialQuery (Demo.userSetup false true)
                         Demo.users (Some (Demo.page 1)))
                      (Demo.env [] Demo.idle 0) QueriedEntity.initialInstance))
                QueriedEntity.Rejected)
             (Demo.env [] Demo.idle 50)
             (QueriedEntity.after
                (QueriedEntity.turn
                   (@QueriedEntity.initialQuery (Demo.userSetup false true)
                      Demo.users (Some (Demo.page 1)))
                   (Demo.env [] Demo.idle 0)
                   QueriedEntity.initialInstance)))))
  <> QueriedEntity.params (QueriedEntity.state QueriedEntity.initialInstance).
Proof.
  split; [vm_compute; reflexivity|]. split; [reflexivity|].
  vm_compute. discriminate.
Qed.

(** ** Mutations *)

Section Mutations.
Import JsObject QueriedEntity.
Context {setup : Setup}.

Lemma checkSetup_passes e s :
  truthyString (url (state s)) = true -> checkSetup e s = (Normal tt, s, []).
Proof.
  intros H. unfold checkSetup, mbind, M_bind, bind, getState.
  cbn beta iota. by rewrite H.
Qed.

(** A mutation that passes the setup check: [freeze], then the action. *)
Lemma mutation_run (ev : State -> Event) e s :
  truthyString (url (state s)) = true ->
  (checkSetup;; call Freeze;; st ← getState; call (ev st);;
   ret (PThen refresh)) e s
  = (Normal (PThen refresh), s, [Freeze; ev (state s)]).
Proof.
  intros H. unfold mbind at 1. unfold M_bind, bind.
  by rewrite (checkSetup_passes e s H).
Qed.

Lemma refresh_run e s :
  refresh e s =
    (Normal tt, after (query None None false e s),
     Unfreeze :: calls (query None None false e s)).
Proof.
  unfold refresh, mbind, M_bind, bind, call. cbn beta iota.
  destruct (query None None false e s) as [[[p|msg] s1] t] eqn:E.
  - unfold after, calls. simpl. by rewrite app_nil_r.
  - rewrite query_run in E. discriminate E.
Qed.

(** C6, as the code has it: with a url set, every mutation calls [freeze]
    and then dispatches its action, and returns the promise of the action
    with one reaction attached.  When the action succeeds the reaction calls
    [unfreeze] first and then issues [query()], which refetches the active
    params of that moment.  When the action fails nothing runs: the failure
    reaches the caller and [unfreeze] is not called. *)
Theorem mutation_sequence (e e' : Env) (s s' : Instance) :
  truthyString (url (state s)) = true ->
  (forall entity,
      create entity e s =
        (Normal (PThen refresh), s,
         [Freeze; CreateEntity entityName entity (url (state s))])) /\
  (forall entity,
      update entity e s =
        (Normal (PThen refresh), s,
         [Freeze; UpdateEntity entityName entity (url (state s)) resultField]))
  /\
  (forall fs,
      patch fs e s =
        (Normal (PThen refresh), s,
         [Freeze; PatchEntity entityName fs (url (state s)) resultField])) /\
  (forall arg,
      delete arg e s =
        (Normal (PThen refresh), s,
         [Freeze;
          DeleteEntity entityName
            match arg with ById id => [("id", VStr id)] | ByEntity o => o end
            (url (state s)) resultField])) /\
  settle (PThen refresh) Fulfilled e' s' =
    (Normal Fulfilled, after (query None None false e' s'),
     Unfreeze :: calls (query None None false e' s')) /\
  (wf (params (state s')) ->
   newParamsOf s' None false = params (state s') /\
   givenUrl s' None = url (state s')) /\
  settle (PThen refresh) Rejected e' s' = (Normal Rejected, s', []).
Proof.
  intros H. repeat split.
  - intros entity.
    by apply (mutation_run (fun st => CreateEntity entityName entity (url st))).
  - intros entity.
    by apply (mutation_run
                (fun st =>
                   UpdateEntity entityName entity (url st) resultField)).
  - intros fs.
    by apply (mutation_run
                (fun st => PatchEntity entityName fs (url st) resultField)).
  - intros arg. unfold delete.
    by apply (mutation_run
                (fun st => DeleteEntity entityName _ (url st) resultField)).
  - unfold settle, react. by rewrite refresh_run.
  - unfold newParamsOf, oldParamsOf, givenParams. simpl.
    rewrite copy_wf by done. by apply spread_self.
Qed.

End Mutations.

Lemma mutation_sequence_witness :
  QueriedEntity.truthyString
    (QueriedEntity.url (QueriedEntity.state (Demo.onPage1 None))) = true /\
  @QueriedEntity.create (Demo.userSetup false true) [("name", VStr "Ann")]
    (Demo.env [] Demo.idle 0) (Demo.onPage1 None)
  = (QueriedEntity.Normal
       (QueriedEntity.PThen
          (@QueriedEntity.refresh (Demo.userSetup false true))),
     Demo.onPage1 None,
     [QueriedEntity.Freeze;
      QueriedEntity.CreateEntity "user" [("name", VStr "Ann")] Demo.users]).
Proof.
  split; [reflexivity|].
  exact (proj1 (@mutation_sequence (Demo.userSetup false true)
                  (Demo.env [] Demo.idle 0) (Demo.env [] Demo.idle 0)
                  (Demo.onPage1 None) (Demo.onPage1 None) eq_refl)
           [("name", VStr "Ann")]).
Defined.

(** C6 as stated fails: the calls of a [create] that succeeds, followed by
    those of its reaction, have [unfreeze] before the calls of the refreshing
    [query()], not after them. *)
Lemma create_unfreezes_before_query :
  QueriedEntity.calls
    (@QueriedEntity.create (Demo.userSetup false true) [("name", VStr "Ann")]
       (Demo.env [] Demo.idle 0) (Demo.onPage1 None))
  ++ QueriedEntity.calls
       (QueriedEntity.settle
          (QueriedEntity.returned
             (@QueriedEntity.create (Demo.userSetup false true)
                [("name", VStr "Ann")]
                (Demo.env [] Demo.idle 0) (Demo.onPage1 None)))
          QueriedEntity.Fulfilled
          (Demo.env [] Demo.idle 50) (Demo.onPage1 None))
  = [QueriedEntity.Freeze;
     QueriedEntity.CreateEntity "user" [("name", VStr "Ann")] Demo.users;
     QueriedEntity.Unfreeze;
     QueriedEntity.Freeze;
     QueriedEntity.QueryEntities "user" Demo.users (Demo.page 1) true false
       false] /\
  QueriedEntity.calls
    (@QueriedEntity.create (Demo.userSetup false true) [("name", VStr "Ann")]
       (Demo.env [] Demo.idle 0) (Demo.onPage1 None))
  ++ QueriedEntity.calls
       (QueriedEntity.settle
          (QueriedEntity.returned
             (@QueriedEntity.create (Demo.userSetup false true)
                [("name", VStr "Ann")]
                (Demo.env [] Demo.idle 0) (Demo.onPage1 None)))
          QueriedEntity.Fulfilled
          (Demo.env [] Demo.idle 50) (Demo.onPage1 None))
  <> [QueriedEntity.Freeze;
      QueriedEntity.CreateEntity "user" [("name", VStr "Ann")] Demo.users]
     ++ QueriedEntity.calls
          (@QueriedEntity.query (Demo.userSetup false true) None None false
             (Demo.env [] Demo.idle 50) (Demo.onPage1 None))
     ++ [QueriedEntity.Unfreeze].
Proof. split; [vm_compute; reflexivity|]. vm_compute. discriminate. Qed.

(** ** The instances a component can be in *)

Section Reachable.
Import JsObject QueriedEntity.
Context {setup : Setup}.

Lemma mutation_after (ev : State -> Event) e s :
  after ((checkSetup;; call Freeze;; st ← getState; call (ev st);;
          ret (PThen refresh)) e s) = s.
Proof.
  destruct (truthyString (url (state s))) eqn:H.
  - by rewrite mutation_run.
  - unfold mbind at 1. unfold M_bind, bind, checkSetup, getState.
    unfold mbind at 1. unfold M_bind, bind. cbn beta iota. by rewrite H.
Qed.

(** [consistent] is an invariant: it holds of a fresh component, and every
    method, every reaction and the end of a turn keep it. *)
Lemma consistent_invariant (e : Env) (s : Instance) :
  consistent initialInstance /\
  consistent (flush s) /\
  (consistent s ->
   (forall ps u initial, consistent (after (query ps u initial e s))) /\
   (forall u ps, consistent (after (initialQuery u ps e s))) /\
   (forall ps u, consistent (after (preload ps u e s))) /\
   (forall x, consistent (after (create x e s))) /\
   (forall x, consistent (after (update x e s))) /\
   (forall x, consistent (after (patch x e s))) /\
   (forall x, consistent (after (delete x e s))) /\
   (forall f, consistent (after (setPreLoader f e s))) /\
   (forall u n old o,
       consistent
         (after (settle (PThenCatch (queryDone u n) (queryFailed old)) o e s)))
   /\
   (forall o, consistent (after (settle (PThen refresh) o e s)))).
Proof.
  split; [by intros _|]. split; [by intros _|]. intros Hs.
  assert (forall ps u initial, consistent (after (query ps u initial e s)))
    as Hq.
  { intros. rewrite query_run. by apply consistent_updated. }
  repeat split; try done.
  - intros u ps. rewrite initialQuery_run, query_run.
    by apply consistent_updated, consistent_updated.
  - intros ps u. destruct (preload_run ps u e s) as [l ->]. exact Hs.
  - intros x. unfold create.
    by rewrite (mutation_after
                  (fun st => CreateEntity entityName x (url st))).
  - intros x. unfold update.
    by rewrite (mutation_after
                  (fun st => UpdateEntity entityName x (url st) resultField)).
  - intros x. unfold patch.
    by rewrite (mutation_after
                  (fun st => PatchEntity entityName x (url st) resultField)).
  - intros x. unfold delete.
    by rewrite (mutation_after
                  (fun st => DeleteEntity entityName _ (url st) resultField)).
  - intros u n old [|]; by apply consistent_updated.
  - intros [|]; [|done]. unfold settle, react. rewrite refresh_run.
    apply Hq.
Qed.

End Reachable.

(** * Further properties of the component *)

(** ** Reactions of [query] *)

Section Reactions.
Import JsObject QueriedEntity.
Context {setup : Setup}.

Lemma settle_query_fulfilled u newParams oldParams e s :
  settle (PThenCatch (queryDone u newParams) (queryFailed oldParams))
    Fulfilled e s =
    (Normal Fulfilled,
     updated s {| p_url := None; p_params := None;
                  p_loadingData := Some false |},
     [Unfreeze; PushToQueue entityName (encodeAPICall u newParams)
                  retain_number]).
Proof. reflexivity. Qed.

Lemma settle_query_rejected u newParams oldParams e s :
  settle (PThenCatch (queryDone u newParams) (queryFailed oldParams))
    Rejected e s =
    (Normal Fulfilled,
     updated s {| p_url := None; p_params := Some oldParams;
                  p_loadingData := Some false |},
     [Unfreeze]).
Proof. reflexivity. Qed.

Lemma returned_query_pending ps u initial e s :
  shouldLoad (now e) (dataOf e s ps u initial) = true ->
  returned (turn (query ps u initial) e s) =
    PThenCatch (queryDone (givenUrl s u) (newParamsOf s ps initial))
      (queryFailed (oldParamsOf s ps initial)).
Proof.
  intros Hload. unfold returned. rewrite result_turn, query_run.
  unfold result. cbn [fst]. by rewrite Hload.
Qed.

Lemma result_query_resolved ps u initial e s :
  shouldLoad (now e) (dataOf e s ps u initial) = false ->
  result (turn (query ps u initial) e s) = Normal PResolved.
Proof.
  intros Hload. rewrite result_turn, query_run.
  unfold result. cbn [fst]. by rewrite Hload.
Qed.

(** The calls of [preload] are never hooks. *)
Lemma preload_calls_no_hook ps u e s ev :
  ev ∈ calls (preload ps u e s) -> ev <> Freeze /\ ev <> Unfreeze.
Proof.
  intros [(a & b & c & ->) | (p & -> & _)]%preload_calls_shape; done.
Qed.

(** X1: The fetch of [query] succeeded: the reaction clears [loadingData], calls
    [unfreeze] and then [pushToQueue] with the key that was fetched and the
    retain number, and fulfils the promise; the params and the url stay as
    the reaction finds them, so the merged params are kept. *)
Theorem query_success_reaction (ps : option Obj) (u : option string)
  (initial : bool) (e e' : Env) (s s' : Instance) :
  shouldLoad (now e) (dataOf e s ps u initial) = true ->
  pendingState s' = [] ->
  let r := turn (settle (returned (turn (query ps u initial) e s)) Fulfilled)
             e' s' in
  result r = Normal Fulfilled /\
  calls r =
    [Unfreeze;
     PushToQueue entityName (queriedKey s ps u initial) retain_number] /\
  fetchKey (directFetch e s ps u initial) = Some (queriedKey s ps u initial) /\
  loadingData (state (after r)) = false /\
  params (state (after r)) = params (state s') /\
  url (state (after r)) = url (state s').
Proof.
  intros Hload Hpend. rewrite returned_query_pending by done.
  cbv zeta. unfold turn. rewrite settle_query_fulfilled.
  unfold result, calls, after. cbn [fst snd].
  rewrite flush_updated by done. by repeat split.
Qed.

(** X2: Whichever way the fetch of [query] ends, the reaction calls [unfreeze]
    exactly once and never [freeze]; with a record already cached and
    [hideLoadIfDataFound] set, [query] itself did not call [freeze], so the
    [unfreeze] comes without a [freeze] before it. *)
Theorem query_unfreeze_without_freeze (ps : option Obj) (u : option string)
  (initial : bool) (e e' : Env) (s s' : Instance) (rcd : CacheRecord)
  (o : Outcome) :
  dataOf e s ps u initial = Some rcd ->
  hideLoadIfDataFound = true ->
  shouldLoad (now e) (Some rcd) = true ->
  (Freeze ∉ calls (query ps u initial e s)) /\
  exists rest,
    calls (settle (returned (turn (query ps u initial) e s)) o e' s')
      = Unfreeze :: rest /\
    (Unfreeze ∉ rest) /\ (Freeze ∉ rest).
Proof.
  intros Hd Hhide Hload. split.
  - rewrite query_run. unfold calls at 1. cbn [snd].
    rewrite Hd, Hhide, Hload. cbn [truthy negb orb app].
    intros [Hin | Hin]%elem_of_app.
    + by apply preload_calls_no_hook in Hin as [? _].
    + by apply list_elem_of_singleton in Hin.
  - rewrite returned_query_pending by by rewrite Hd.
    destruct o.
    + rewrite settle_query_fulfilled. unfold calls. cbn [snd].
      eexists. split; [reflexivity|].
      split; intros Hin%list_elem_of_singleton; done.
    + rewrite settle_query_rejected. unfold calls. cbn [snd].
      exists []. split; [done|]. split; apply not_elem_of_nil.
Qed.

Lemma query_calls_freeze ps u initial e s :
  dataOf e s ps u initial = None \/ hideLoadIfDataFound = false ->
  Freeze ∈ calls (query ps u initial e s).
Proof.
  intros H. rewrite query_run. unfold calls at 1. cbn [snd].
  rewrite !elem_of_app. left.
  assert (negb (truthy (dataOf e s ps u initial))
          || negb hideLoadIfDataFound = true) as ->.
  { apply orb_true_iff. destruct H as [-> | ->]; [by left | by right]. }
  by apply list_elem_of_singleton.
Qed.

(** X3: [query] calls [freeze] exactly when the merged params have no record or
    [hideLoadIfDataFound] is off. *)
Theorem query_freeze_iff (ps : option Obj) (u : option string)
  (initial : bool) (e : Env) (s : Instance) :
  Freeze ∈ calls (query ps u initial e s) <->
  dataOf e s ps u initial = None \/ hideLoadIfDataFound = false.
Proof.
  split; [|apply query_calls_freeze].
  rewrite query_run. unfold calls at 1. cbn [snd].
  rewrite !elem_of_app.
  - intros [Hin | [Hin | Hin]].
    + destruct (negb (truthy _) || negb _) eqn:E;
        [|by apply elem_of_nil in Hin].
      apply orb_true_iff in E as [E | E].
      * left. by apply truthy_false, negb_true_iff.
      * right. by apply negb_true_iff.
    + by apply preload_calls_no_hook in Hin as [? _].
    + destruct (shouldLoad _ _); [|by apply elem_of_nil in Hin].
      by apply list_elem_of_singleton in Hin.
Qed.

(** X4: When [shouldLoad] is false (the record is in flight or freshly
    preloaded), [query] returns, without throwing, a promise that is
    already resolved and has no reaction, never calls [unfreeze], and
    leaves [loadingData] set: no later turn of this call clears it.  The
    instance is any the component can be in: nothing is left pending unless
    React batches. *)
Theorem query_skipped_leaves_loading (ps : option Obj) (u : option string)
  (initial : bool) (e : Env) (s : Instance) :
  shouldLoad (now e) (dataOf e s ps u initial) = false ->
  consistent s ->
  let r := turn (query ps u initial) e s in
  result r = Normal PResolved /\
  (forall o e' s', settle PResolved o e' s' = (Normal Fulfilled, s', [])) /\
  loadingData (state (after r)) = true /\
  (Unfreeze ∉ calls r) /\
  (hideLoadIfDataFound = false -> Freeze ∈ calls r).
Proof.
  intros Hload Hcons. cbv zeta.
  split; [by apply result_query_resolved|].
  split; [done|]. split; [|split].
  - by rewrite state_after_query.
  - rewrite calls_turn, query_run. unfold calls at 1. cbn [snd].
    rewrite Hload, app_nil_r. intros [Hin | Hin]%elem_of_app.
    + destruct (_ || _); [|by apply elem_of_nil in Hin].
      by apply list_elem_of_singleton in Hin.
    + by apply preload_calls_no_hook in Hin as [_ ?].
  - intros Hhide. rewrite calls_turn. apply query_calls_freeze. by right.
Qed.

End Reactions.

(** ** More on preloading *)

Section PreloadMore.
Import JsObject QueriedEntity.
Context {setup : Setup}.

(** The loop of [preload], with the promises it makes. *)
Lemma forEach_preloadOne_promises u l e s :
  forEach l (preloadOne u) e s =
    (Normal
       (preloadPromise s u <$>
          filter (fun p => cached e u (spread (params (state s)) p) = false) l),
     s,
     speculative s u <$>
       filter (fun p => cached e u (spread (params (state s)) p) = false) l).
Proof.
  induction l as [|p l IH]; simpl; [done|].
  rewrite run_bind, preloadOne_run.
  destruct (cached e u (spread (params (state s)) p)) eqn:Hc.
  - rewrite run_bind, IH. simpl.
    rewrite filter_cons_False by congruence. by rewrite app_nil_r.
  - rewrite run_bind, IH. simpl.
    rewrite filter_cons_True by done. by rewrite app_nil_r.
Qed.

(** The predicted params that [preload] fetches. *)
Lemma preload_promised f ps u e s :
  preLoaderFunc s = Some f ->
  smartPreload && tooSlow (networkTimer (props e)) = false ->
  promised (preload ps u e s) =
    preloadPromise s u <$>
      filter (fun p => cached e u (spread (params (state s)) p) = false)
        (predicted f e s ps u).
Proof.
  intros Hf Hgate. unfold preload, promised, result.
  rewrite run_bind. simpl. rewrite Hf. rewrite run_bind. simpl.
  rewrite Hgate. rewrite run_bind. simpl. rewrite run_bind. simpl.
  pose proof (forEach_preloadOne_promises u (predicted f e s ps u) e s) as H.
  unfold predicted in H. by rewrite H.
Qed.

Lemma preload_promised_skipped ps u e s :
  preLoaderFunc s = None \/
  smartPreload && tooSlow (networkTimer (props e)) = true ->
  promised (preload ps u e s) = [].
Proof.
  intros H. unfold preload, promised, result. rewrite run_bind. simpl.
  destruct (preLoaderFunc s) as [f|]; [|done].
  destruct H as [? | Hgate]; [done|].
  rewrite run_bind. simpl. by rewrite Hgate.
Qed.

Lemma settle_preloadPromise s u p o e' s' :
  settle (preloadPromise s u p) o e' s' =
    (Normal Fulfilled, s',
     match o with
     | Fulfilled =>
         [PushToQueue entityName
            (encodeAPICall u (spread (params (state s)) p)) retain_number]
     | Rejected => []
     end).
Proof. by destruct o. Qed.

(** X5: Every promise that [preload] makes belongs to one of its fetches.  When
    that fetch fails the failure is swallowed: nothing is called, the
    instance is left alone and the promise is fulfilled.  When it succeeds
    the only call is [pushToQueue] with the key that was fetched. *)
Theorem preload_promise_reactions (ps : Obj) (u : option string)
  (e e' : Env) (s s' : Instance) (pr : Promise) :
  pr ∈ promised (preload ps u e s) ->
  settle pr Rejected e' s' = (Normal Fulfilled, s', []) /\
  exists ev key,
    ev ∈ calls (preload ps u e s) /\
    isFetch ev = true /\
    fetchKey ev = Some key /\
    settle pr Fulfilled e' s' =
      (Normal Fulfilled, s', [PushToQueue entityName key retain_number]).
Proof.
  intros Hin.
  destruct (preLoaderFunc s) as [f|] eqn:Hf;
    [|rewrite preload_promised_skipped in Hin by (by left);
      by apply elem_of_nil in Hin].
  destruct (smartPreload && tooSlow (networkTimer (props e))) eqn:Hgate;
    [rewrite preload_promised_skipped in Hin by (by right);
     by apply elem_of_nil in Hin|].
  rewrite (preload_promised f) in Hin by done.
  apply list_elem_of_fmap in Hin as (p & -> & Hp).
  split; [apply settle_preloadPromise|].
  exists (speculative s u p), (encodeAPICall u (spread (params (state s)) p)).
  split; [|split; [done|split; [done|apply settle_preloadPromise]]].
  rewrite (preload_calls_planned f) by done. right.
  apply list_elem_of_fmap. by exists p.
Qed.

(** X6: [preload] never changes the instance; it makes one promise per fetch;
    and each of its calls either consults the preloader or is a fetch
    marked as a preload, with [markLoading] set, for a key that has no
    record: it calls no hook and queues no key. *)
Theorem preload_only_speculates (ps : Obj) (u : option string) (e : Env)
  (s : Instance) :
  after (preload ps u e s) = s /\
  length (promised (preload ps u e s))
    = length (fetches (calls (preload ps u e s))) /\
  forall ev,
    ev ∈ calls (preload ps u e s) ->
    (exists a b c, ev = Predict a b c) \/
    (exists ps',
        ev = QueryEntities entityName u ps' true true smartPreload /\
        records (props e) !! encodeAPICall u ps' = None).
Proof.
  split; [|split].
  - destruct (preload_run ps u e s) as [l ->]. reflexivity.
  - destruct (preLoaderFunc s) as [f|] eqn:Hf.
    + destruct (smartPreload && tooSlow (networkTimer (props e))) eqn:Hgate.
      * rewrite preload_promised_skipped by (by right).
        by rewrite (preload_calls_skipped f).
      * rewrite (preload_promised f), (preload_calls_planned f) by done.
        unfold fetches. rewrite filter_cons_False by done.
        generalize (filter
                      (fun p =>
                         cached e u (spread (params (state s)) p) = false)
                      (predicted f e s ps u)).
        intros l. induction l as [|p l IH]; [done|].
        rewrite !fmap_cons, filter_cons_True by done. simpl.
        by rewrite IH.
    + rewrite preload_promised_skipped by (by left).
      by rewrite preload_calls_unregistered.
  - intros ev [? | (p & -> & Hc)]%preload_calls_shape; [by left|].
    right. exists (spread (params (state s)) p). split; [done|].
    by apply truthy_false.
Qed.

(** X7: With the smart mode off the network timer is not looked at: two runs
    of [preload] that differ only in the timer make the same calls, however
    slow the network is. *)
Theorem preload_ignores_timer_when_not_smart (ps : Obj) (u : option string)
  (e1 e2 : Env) (s : Instance) :
  smartPreload = false ->
  records (props e1) = records (props e2) ->
  calls (preload ps u e1 s) = calls (preload ps u e2 s).
Proof.
  intros Hsmart Hrec.
  destruct (preLoaderFunc s) as [f|] eqn:Hf;
    [|by rewrite !preload_calls_unregistered].
  rewrite !(preload_calls_planned f) by (by rewrite ?Hsmart).
  unfold predicted, cached. by rewrite Hrec.
Qed.

(** X8: With no preloader registered, [query] makes at most two calls:
    [freeze] when it is due and the direct fetch when [shouldLoad] asks
    for it. *)
Theorem query_without_preloader (ps : option Obj) (u : option string)
  (initial : bool) (e : Env) (s : Instance) :
  preLoaderFunc s = None ->
  calls (query ps u initial e s) =
    (if negb (truthy (dataOf e s ps u initial)) || negb hideLoadIfDataFound
     then [Freeze] else [])
    ++ (if shouldLoad (now e) (dataOf e s ps u initial)
        then [directFetch e s ps u initial] else []).
Proof.
  intros Hf. rewrite query_run. unfold calls at 1. cbn [snd].
  rewrite preload_calls_unregistered; [done|].
  unfold queried. by rewrite preLoaderFunc_updated.
Qed.

(** X9: [setPreLoader] replaces the preloader, whatever was registered before,
    makes no call and leaves the state alone; the next [preload] that plans
    consults the new function and fetches what it predicts. *)
Theorem setPreLoader_registers (f : Predictor) (ps : Obj)
  (u : option string) (e0 e : Env) (s : Instance) :
  smartPreload && tooSlow (networkTimer (props e)) = false ->
  let s1 := after (setPreLoader f e0 s) in
  calls (setPreLoader f e0 s) = [] /\
  state s1 = state s /\
  pendingState s1 = pendingState s /\
  calls (preload ps u e s1) =
    Predict ps (spread (params (state s)) ps)
      (metadataCopy (queryMetadata (records (props e) !! encodeAPICall u ps)))
    :: (speculative s u <$>
          filter (fun p => cached e u (spread (params (state s)) p) = false)
            (predicted f e s ps u)).
Proof.
  intros Hgate. cbv zeta. split; [done|]. split; [done|]. split; [done|].
  by rewrite (preload_calls_planned f).
Qed.

End PreloadMore.

(** ** More on objects *)

Section ObjectMore.
Import JsObject.

Lemma get_remove k f o :
  get k (remove f o) = if String.eqb k f then None else get k o.
Proof.
  induction o as [|[k0 v0] o IH]; simpl.
  - by destruct (String.eqb k f).
  - destruct (String.eqb f k0) eqn:E0.
    + apply String.eqb_eq in E0; subst k0. rewrite IH.
      by destruct (String.eqb k f).
    + simpl. rewrite IH. destruct (String.eqb k k0) eqn:E1; [|done].
      apply String.eqb_eq in E1; subst k0.
      destruct (String.eqb k f) eqn:E2; [|done].
      apply String.eqb_eq in E2; subst f.
      rewrite String.eqb_refl in E0. discriminate.
Qed.

Lemma wf_remove f o : wf o -> wf (remove f o).
Proof.
  unfold wf, keys. induction o as [|[k0 v0] o IH]; simpl; intros Hwf;
    [done|].
  apply NoDup_cons in Hwf as [Hk0 Hwf].
  destruct (String.eqb f k0); [by apply IH|].
  rewrite fmap_cons. apply NoDup_cons. split; [|by apply IH].
  simpl. apply get_None. rewrite get_remove.
  destruct (String.eqb k0 f); [done | by apply get_None].
Qed.

(** Copying an object gives it no new key. *)
Lemma get_assign_None k t s :
  get k t = None -> get k s = None -> get k (assign t s) = None.
Proof.
  unfold assign. revert t. induction s as [|[k0 v0] s IH]; simpl;
    intros t Ht Hs; [done|].
  destruct (String.eqb k k0) eqn:E; [done|].
  apply IH; [|done]. by rewrite get_set, E.
Qed.

Lemma get_copy_None k o : get k o = None -> get k (copy o) = None.
Proof. intros H. by apply get_assign_None. Qed.

(** Merging the same object twice changes nothing more. *)
Lemma spread_again a b : wf a -> wf b -> spread (spread a b) b = spread a b.
Proof.
  intros Ha Hb. unfold spread at 1. rewrite copy_wf by apply wf_spread.
  apply assign_same. intros k v Hin.
  rewrite get_spread by done. by rewrite (get_Some_elem k v b).
Qed.

End ObjectMore.

(** ** Freshness over time *)

Section FreshnessMore.
Import JsObject QueriedEntity.
Context {setup : Setup}.

(** X10: A record that needs loading at some time needs loading at every later
    time: only a fetch makes it fresh again. *)
Theorem shouldLoad_monotone (t t' : Z) (data : option CacheRecord) :
  t <= t' -> shouldLoad t data = true -> shouldLoad t' data = true.
Proof.
  intros Hle. destruct data as [[|r]|]; simpl; try done.
  destruct (preloadedAt r) as [t0|]; [|done].
  destruct (Z.ltb_spec (t - t0) preloadValidTime); [done|].
  intros _. destruct (Z.ltb_spec (t' - t0) preloadValidTime); [lia | done].
Qed.

(** X11: The metadata handed to the preloader never holds the result field; when
    the current key holds a stored response, every other field of the
    response is handed over unchanged.  Without a result field the preloader
    gets an empty object. *)
Theorem preloader_metadata (ps : Obj) (u : option string) (e : Env)
  (s : Instance) (a b : Obj) (m : CacheEntry) :
  Predict a b m ∈ calls (preload ps u e s) ->
  (forall f,
      resultField = Some f -> f <> "" -> f <> "preloadedAt" ->
      get f (fields m) = None /\
      forall r,
        records (props e) !! encodeAPICall u ps = Some (Loaded r) ->
        wf (fields r) ->
        preloadedAt m = preloadedAt r /\
        forall k, k <> f -> get k (fields m) = get k (fields r)) /\
  (truthyString resultField = false -> m = emptyEntry).
Proof.
  intros Hin.
  assert (m = metadataCopy
                (queryMetadata (records (props e) !! encodeAPICall u ps)))
    as ->.
  { destruct (preload_run ps u e s) as [l Hrun]. rewrite Hrun in Hin.
    unfold calls in Hin. cbn [snd] in Hin.
    destruct (preLoaderFunc s); [|by apply elem_of_nil in Hin].
    destruct (smartPreload && _); [by apply elem_of_nil in Hin|].
    apply elem_of_cons in Hin as [Heq | Hin]; [by injection Heq|].
    apply list_elem_of_fmap in Hin as (q & Heq & _). done. }
  split.
  - intros f Hf Hne Hpre. unfold queryMetadata. rewrite Hf. simpl.
    assert (String.eqb f "" = false) as -> by by apply String.eqb_neq.
    simpl. unfold deleteField.
    assert (String.eqb f "preloadedAt" = false) as ->
      by by apply String.eqb_neq.
    simpl. split.
    + apply get_copy_None. rewrite get_remove. by rewrite String.eqb_refl.
    + intros r -> Hwf. simpl. split; [done|]. intros k Hk.
      rewrite (copy_wf (fields r)) by done.
      rewrite copy_wf by by apply wf_remove.
      rewrite get_remove.
      by assert (String.eqb k f = false) as -> by by apply String.eqb_neq.
  - intros Hf. unfold queryMetadata. by rewrite Hf.
Qed.

End FreshnessMore.

(** ** Setting up, and querying again *)

Section Lifecycle.
Import JsObject QueriedEntity.
Context {setup : Setup}.

Lemma checkSetup_throws_falsy e s :
  truthyString (url (state s)) = false ->
  checkSetup e s = (Thrown ("No url specified for " +:+ entityName), s, []).
Proof.
  intros H. unfold checkSetup, mbind, M_bind, bind, getState.
  cbn beta iota. by rewrite H.
Qed.

Lemma truthyString_false (v : option string) :
  truthyString v = false <-> v = None \/ v = Some "".
Proof.
  destruct v as [w|]; simpl.
  - rewrite negb_false_iff, String.eqb_eq. split.
    + intros ->. by right.
    + by intros [? | [= ->]].
  - split; [by left | done].
Qed.

(** X12: After a turn of [initialQuery(v, ps)] the url is [v], the params are
    the given ones ([{}] when none are given) and [loadingData] is set;
    when [v] is not empty a mutation then passes the setup check and is
    dispatched with that url. *)
Theorem initialQuery_sets_up (v : string) (ps : option Obj) (e : Env)
  (s : Instance) :
  pendingState s = [] ->
  wf (default [] ps) ->
  let s1 := after (turn (initialQuery (Some v) ps) e s) in
  state s1 =
    {| url := Some v; params := default [] ps; loadingData := true |} /\
  (v <> "" ->
   forall entity e',
     create entity e' s1 =
       (Normal (PThen refresh), s1,
        [Freeze; CreateEntity entityName entity (Some v)])).
Proof.
  intros Hpend Hwf. cbv zeta.
  assert (state (after (turn (initialQuery (Some v) ps) e s)) =
            {| url := Some v; params := default [] ps; loadingData := true |})
    as Hst.
  { rewrite after_turn, initialQuery_run, <- after_turn, state_after_query.
    - rewrite newParamsOf_initial by done.
      rewrite flush_updated_consistent by by apply consistent_fresh.
      by rewrite flush_fresh.
    - by apply consistent_updated, consistent_fresh. }
  split; [exact Hst|]. intros Hv entity e'.
  set (s1 := after (turn (initialQuery (Some v) ps) e s)) in *.
  pose proof (mutation_run
                (fun st => CreateEntity entityName entity (url st)) e' s1)
    as Hrun.
  rewrite Hst in Hrun. simpl in Hrun. apply Hrun.
  apply negb_true_iff. by apply String.eqb_neq.
Qed.

(** X13: A mutation throws exactly when the url is [undefined] or the empty
    string: an empty url counts as no url. *)
Theorem mutation_throws_iff (e : Env) (s : Instance) :
  (forall entity,
      threw (create entity e s) = true <->
      url (state s) = None \/ url (state s) = Some "") /\
  (forall entity,
      threw (update entity e s) = true <->
      url (state s) = None \/ url (state s) = Some "") /\
  (forall fs,
      threw (patch fs e s) = true <->
      url (state s) = None \/ url (state s) = Some "") /\
  (forall arg,
      threw (delete arg e s) = true <->
      url (state s) = None \/ url (state s) = Some "").
Proof.
  assert (forall ev : State -> Event,
             threw ((checkSetup;; call Freeze;; st ← getState; call (ev st);;
                     ret (PThen refresh)) e s) = true <->
             url (state s) = None \/ url (state s) = Some "") as H.
  { intros ev. rewrite <- truthyString_false.
    destruct (truthyString (url (state s))) eqn:E.
    - by rewrite mutation_run.
    - unfold mbind at 1. unfold M_bind, bind.
      by rewrite checkSetup_throws_falsy. }
  split; [|split; [|split]]; intros x.
  - apply (H (fun st => CreateEntity entityName x (url st))).
  - apply (H (fun st => UpdateEntity entityName x (url st) resultField)).
  - apply (H (fun st => PatchEntity entityName x (url st) resultField)).
  - apply (H (fun st => DeleteEntity entityName _ (url st) resultField)).
Qed.

Lemma pendingState_after_turn {A} (m : M A) e s :
  pendingState (after (turn m e s)) = [].
Proof. rewrite after_turn. reflexivity. Qed.

(** X14: Querying again with the same params, in a later turn, leaves the active
    params as they are. *)
Theorem query_again_same_params (ps : Obj) (u u' : option string)
  (e e' : Env) (s : Instance) :
  wf (params (state s)) -> wf ps -> pendingState s = [] ->
  let s1 := after (turn (query (Some ps) u false) e s) in
  params (state (after (turn (query (Some ps) u' false) e' s1)))
  = params (state s1).
Proof.
  intros Hs Hps Hpend. cbv zeta.
  rewrite (state_after_query (Some ps) u' false)
    by apply consistent_fresh, pendingState_after_turn.
  rewrite state_after_query by by apply consistent_fresh.
  cbn [params]. unfold newParamsOf at 1, oldParamsOf, givenParams.
  rewrite state_after_query by by apply consistent_fresh.
  cbn [params default from_option id].
  unfold newParamsOf, oldParamsOf, givenParams. cbn [default from_option id].
  rewrite (copy_wf (params (state s))) by done.
  rewrite copy_wf by apply wf_spread.
  by apply spread_again.
Qed.

(** A fetch of [query] that is not a preload is its direct fetch, and is
    there only when [shouldLoad] asks for it. *)
Lemma query_plain_fetch ps u initial e s n u' ps' ml sm :
  QueryEntities n u' ps' ml false sm ∈ calls (query ps u initial e s) ->
  shouldLoad (now e) (dataOf e s ps u initial) = true.
Proof.
  rewrite query_run. unfold calls at 1. cbn [snd].
  rewrite !elem_of_app. intros [Hin | [Hin | Hin]].
  - destruct (_ || _); [|by apply elem_of_nil in Hin].
    by apply list_elem_of_singleton in Hin.
  - apply preload_calls_shape in Hin as [(a & b & c & ?) | (p & Heq & _)];
      [done|]. unfold speculative in Heq. done.
  - destruct (shouldLoad _ _); [done | by apply elem_of_nil in Hin].
Qed.

(** X15: The refresh after a mutation goes through [shouldLoad] like any other
    query: the active params are refetched exactly when [shouldLoad] is
    true for their record, so after a mutation a record that is in flight
    or freshly preloaded is not fetched again. *)
Theorem refresh_fetches_when_stale (e : Env) (s : Instance) :
  (directFetch e s None None false
     ∈ calls (settle (PThen refresh) Fulfilled e s) <->
   shouldLoad (now e) (dataOf e s None None false) = true) /\
  (shouldLoad (now e) (dataOf e s None None false) = false ->
   forall n u ps ml sm,
     QueryEntities n u ps ml false sm
       ∉ calls (settle (PThen refresh) Fulfilled e s)).
Proof.
  assert (calls (settle (PThen refresh) Fulfilled e s) =
            Unfreeze :: calls (query None None false e s)) as ->.
  { unfold settle, react. by rewrite refresh_run. }
  split.
  - rewrite <- query_direct_fetch. rewrite elem_of_cons. split; [|by right].
    by intros [? | ?].
  - intros Hload n u ps ml sm [? | Hin]%elem_of_cons; [done|].
    apply query_plain_fetch in Hin. congruence.
Qed.

(** X16: A url given to [query] is used for the fetches of that call but is not
    stored: the url of the state is the one before the call. *)
Theorem query_url_not_stored (ps : option Obj) (v : string) (initial : bool)
  (e : Env) (s : Instance) :
  pendingState s = [] ->
  let r := turn (query ps (Some v) initial) e s in
  url (state (after r)) = url (state s) /\
  forall ev,
    ev ∈ calls r -> isFetch ev = true ->
    exists ps' ml ip sm, ev = QueryEntities entityName (Some v) ps' ml ip sm.
Proof.
  intros Hpend. cbv zeta. split.
  - rewrite state_after_query by by apply consistent_fresh.
    cbn [url]. by rewrite flush_fresh.
  - intros ev. rewrite calls_turn, query_run. unfold calls at 1. cbn [snd].
    rewrite !elem_of_app. intros [Hin | [Hin | Hin]] Hf.
    + destruct (_ || _); [|by apply elem_of_nil in Hin].
      apply list_elem_of_singleton in Hin. by subst.
    + apply preload_calls_shape in Hin as [(a & b & c & ->) | (p & -> & _)];
        [done|]. unfold speculative. simpl. eauto.
    + destruct (shouldLoad _ _); [|by apply elem_of_nil in Hin].
      apply list_elem_of_singleton in Hin. subst. unfold directFetch.
      simpl. eauto.
Qed.

End Lifecycle.

Section NoSetup.
Import JsObject QueriedEntity.
Context {setup : Setup}.

(** X19: [query] does not check the setup: called before [initialQuery], with
    no url given, it returns a promise and, when [shouldLoad] asks for a
    fetch, dispatches it with an undefined url. *)
Theorem query_without_setup (ps : option Obj) (initial : bool) (e : Env)
  (s : Instance) :
  url (state s) = None ->
  shouldLoad (now e) (dataOf e s ps None initial) = true ->
  threw (query ps None initial e s) = false /\
  QueryEntities entityName None (newParamsOf s ps initial)
    (negb (truthy (dataOf e s ps None initial))) false smartPreload
    ∈ calls (query ps None initial e s).
Proof.
  intros Hurl Hload. split.
  - rewrite query_run. reflexivity.
  - pose proof (proj2 (query_direct_fetch ps None initial e s) Hload) as H.
    unfold directFetch, dataOf, givenUrl in *. rewrite Hurl in *. exact H.
Qed.

End NoSetup.

(** ** Batched state updates *)

Section Batching.
Import JsObject QueriedEntity.
Context {setup : Setup}.

(** What [this.state.params] reads right after the [setState] of [query]. *)
Lemma params_queried s ps initial :
  params (state (queried s ps initial)) =
    if batchedUpdates then params (state s) else newParamsOf s ps initial.
Proof. unfold queried, updated. by destruct batchedUpdates. Qed.

Lemma after_query_then_query pa pb u u' e s :
  after ((query pa u false ≫= fun _ => query pb u' false) e s)
  = queried (queried s pa false) pb false.
Proof. rewrite run_bind, !query_run. reflexivity. Qed.

(** X17: Two calls of [query] in one turn.  Without batching the second call
    merges over the params the first one left.  With batching both calls
    read the params from before the turn, and the update of the second call
    wins: the keys that only the first call gave are lost. *)
Theorem query_twice_in_one_turn (a b : Obj) (u u' : option string)
  (e : Env) (s : Instance) :
  wf (params (state s)) -> wf a -> wf b -> pendingState s = [] ->
  forall k,
    get k (params (state (after
             (turn (query (Some a) u false
                    ≫= fun _ => query (Some b) u' false) e s)))) =
      match get k b with
      | Some v => Some v
      | None =>
          if batchedUpdates then get k (params (state s))
          else match get k a with
               | Some v => Some v
               | None => get k (params (state s))
               end
      end.
Proof.
  intros Hs Ha Hb Hpend k.
  rewrite after_turn, after_query_then_query.
  unfold queried at 1. rewrite flush_updated_consistent
    by (unfold queried; by apply consistent_updated, consistent_fresh).
  cbn [applyPatch params p_params default from_option id].
  unfold newParamsOf at 1, oldParamsOf, givenParams.
  cbn [default from_option id]. rewrite params_queried.
  destruct batchedUpdates.
  - rewrite copy_wf by done. by apply get_spread.
  - unfold newParamsOf, oldParamsOf, givenParams.
    cbn [default from_option id].
    rewrite (copy_wf (params (state s))) by done.
    rewrite copy_wf by apply wf_spread.
    rewrite get_spread by (done || apply wf_spread).
    by rewrite get_spread by done.
Qed.

(** X18: The params a preloading fetch of [query] is for: the predicted params
    merged over [this.state.params] as [preload] reads them, which are the
    merged params of the call without batching and the params from before
    the call with batching. *)
Theorem preload_merges_over_state (ps : option Obj) (u : option string)
  (initial : bool) (e : Env) (s : Instance) (n : string)
  (u' : option string) (ps' : Obj) (ml : bool) (sm : bool) :
  QueryEntities n u' ps' ml true sm ∈ calls (query ps u initial e s) ->
  exists f p,
    preLoaderFunc s = Some f /\
    p ∈ predicted f e (queried s ps initial) (givenParams s ps) (givenUrl s u)
    /\
    ps' = spread (if batchedUpdates then params (state s)
                  else newParamsOf s ps initial) p.
Proof.
  rewrite query_run. unfold calls at 1. cbn [snd].
  rewrite !elem_of_app. intros [Hin | [Hin | Hin]].
  - destruct (_ || _); [|by apply elem_of_nil in Hin].
    by apply list_elem_of_singleton in Hin.
  - destruct (preload_run (givenParams s ps) (givenUrl s u) e
                (queried s ps initial)) as [l Hrun].
    rewrite Hrun in Hin. unfold calls in Hin. cbn [snd] in Hin.
    unfold queried in Hin at 1. rewrite preLoaderFunc_updated in Hin.
    destruct (preLoaderFunc s) as [f|]; [|by apply elem_of_nil in Hin].
    destruct (smartPreload && _); [by apply elem_of_nil in Hin|].
    apply elem_of_cons in Hin as [? | Hin]; [done|].
    apply list_elem_of_fmap in Hin as (p & Heq & Hp).
    apply list_elem_of_filter in Hp as [_ Hp].
    exists f, p. split; [done|]. split; [done|].
    unfold speculative in Heq. injection Heq as _ _ -> _ _.
    by rewrite params_queried.
  - destruct (shouldLoad _ _); [|by apply elem_of_nil in Hin].
    apply list_elem_of_singleton in Hin. unfold directFetch in Hin. done.
Qed.

End Batching.

(** ** The further properties at the scenarios *)

Lemma wf_page n : JsObject.wf (Demo.page n).
Proof.
  unfold JsObject.wf, JsObject.keys. simpl. apply NoDup_singleton.
Qed.

Lemma wf_size n : JsObject.wf (Demo.size n).
Proof.
  unfold JsObject.wf, JsObject.keys. simpl. apply NoDup_singleton.
Qed.

Lemma query_success_reaction_witness :
  QueriedEntity.calls
    (QueriedEntity.turn
       (QueriedEntity.settle
          (QueriedEntity.returned
             (QueriedEntity.turn
                (@QueriedEntity.query Demo.plain (Some (Demo.page 2)) None
                   false)
                (Demo.env [] Demo.idle 0) (Demo.onPage1 None)))
          QueriedEntity.Fulfilled)
       (Demo.env [] Demo.idle 50) (Demo.onPage1 None))
  = [QueriedEntity.Unfreeze;
     QueriedEntity.PushToQueue "user" "/users?page=2" 10].
Proof.
  exact (proj1 (proj2
           (@query_success_reaction Demo.plain (Some (Demo.page 2)) None false
              (Demo.env [] Demo.idle 0) (Demo.env [] Demo.idle 50)
              (Demo.onPage1 None) (Demo.onPage1 None) eq_refl eq_refl))).
Defined.

Lemma query_unfreeze_without_freeze_witness :
  QueriedEntity.Freeze
  ∉ QueriedEntity.calls
      (@QueriedEntity.query Demo.plain (Some (Demo.page 1)) None false
         (Demo.env [("/users?page=1", Demo.response None)] Demo.idle 0)
         (Demo.onPage1 None)).
Proof.
  exact (proj1
           (@query_unfreeze_without_freeze Demo.plain (Some (Demo.page 1))
              None false
              (Demo.env [("/users?page=1", Demo.response None)] Demo.idle 0)
              (Demo.env [] Demo.idle 50) (Demo.onPage1 None)
              (Demo.onPage1 None) (Demo.response None)
              QueriedEntity.Rejected eq_refl eq_refl eq_refl)).
Defined.

Lemma query_freeze_iff_witness :
  QueriedEntity.Freeze
  ∈ QueriedEntity.calls
      (@QueriedEntity.query Demo.plain (Some (Demo.page 1)) None false
         (Demo.env [] Demo.idle 0) (Demo.onPage1 None)).
Proof.
  apply (proj2 (@query_freeze_iff Demo.plain (Some (Demo.page 1)) None false
                  (Demo.env [] Demo.idle 0) (Demo.onPage1 None))).
  left. reflexivity.
Defined.

Lemma query_skipped_leaves_loading_witness :
  QueriedEntity.loadingData
    (QueriedEntity.state
       (QueriedEntity.after
          (QueriedEntity.turn
             (@QueriedEntity.query Demo.plain (Some (Demo.page 1)) None false)
             (Demo.env [("/users?page=1", Demo.response (Some 0))]
                Demo.idle 5000)
             (Demo.onPage1 None))))
  = true.
Proof.
  exact (proj1 (proj2 (proj2
           (@query_skipped_leaves_loading Demo.plain (Some (Demo.page 1)) None
              false
              (Demo.env [("/users?page=1", Demo.response (Some 0))]
                 Demo.idle 5000)
              (Demo.onPage1 None) eq_refl (fun _ => eq_refl))))).
Defined.

Lemma preload_promise_reactions_witness :
  QueriedEntity.settle
    (QueriedEntity.preloadPromise (setup := Demo.plain)
       (Demo.onPage1 (Some Demo.nextPage)) Demo.users (Demo.page 2))
    QueriedEntity.Rejected (Demo.env [] Demo.idle 50) (Demo.onPage1 None)
  = (QueriedEntity.Normal QueriedEntity.Fulfilled, Demo.onPage1 None, []).
Proof.
  apply (@preload_promise_reactions Demo.plain (Demo.page 1) Demo.users
           (Demo.env [] Demo.idle 0) (Demo.env [] Demo.idle 50)
           (Demo.onPage1 (Some Demo.nextPage)) (Demo.onPage1 None)).
  vm_compute. left.
Defined.

Lemma preload_only_speculates_witness :
  length
    (QueriedEntity.promised
       (@QueriedEntity.preload Demo.plain (Demo.page 1) Demo.users
          (Demo.env [] Demo.idle 0) (Demo.onPage1 (Some Demo.nextPage))))
  = 1%nat.
Proof.
  rewrite (proj1 (proj2
             (@preload_only_speculates Demo.plain (Demo.page 1) Demo.users
                (Demo.env [] Demo.idle 0)
                (Demo.onPage1 (Some Demo.nextPage))))).
  reflexivity.
Defined.

Lemma preload_ignores_timer_when_not_smart_witness :
  QueriedEntity.calls
    (@QueriedEntity.preload Demo.plain (Demo.page 1) Demo.users
       (Demo.env [] (Demo.timer (9000 # 1) 50) 0)
       (Demo.onPage1 (Some Demo.nextPage)))
  = QueriedEntity.calls
      (@QueriedEntity.preload Demo.plain (Demo.page 1) Demo.users
         (Demo.env [] Demo.idle 0) (Demo.onPage1 (Some Demo.nextPage))).
Proof.
  exact (@preload_ignores_timer_when_not_smart Demo.plain (Demo.page 1)
           Demo.users (Demo.env [] (Demo.timer (9000 # 1) 50) 0)
           (Demo.env [] Demo.idle 0) (Demo.onPage1 (Some Demo.nextPage))
           eq_refl eq_refl).
Defined.

Lemma query_without_preloader_witness :
  QueriedEntity.calls
    (@QueriedEntity.query Demo.plain (Some (Demo.page 2)) None false
       (Demo.env [] Demo.idle 0) (Demo.onPage1 None))
  = [QueriedEntity.Freeze;
     QueriedEntity.QueryEntities "user" Demo.users (Demo.page 2) true false
       false].
Proof.
  exact (@query_without_preloader Demo.plain (Some (Demo.page 2)) None false
           (Demo.env [] Demo.idle 0) (Demo.onPage1 None) eq_refl).
Defined.

Lemma setPreLoader_registers_witness :
  QueriedEntity.calls
    (@QueriedEntity.preload Demo.plain (Demo.page 1) Demo.users
       (Demo.env [] Demo.idle 0)
       (QueriedEntity.after
          (QueriedEntity.setPreLoader Demo.nextPage (Demo.env [] Demo.idle 0)
             (Demo.onPage1 None))))
  = [QueriedEntity.Predict (Demo.page 1) (Demo.page 1)
       QueriedEntity.emptyEntry;
     QueriedEntity.QueryEntities "user" Demo.users (Demo.page 2) true true
       false].
Proof.
  exact (proj2 (proj2 (proj2
           (@setPreLoader_registers Demo.plain Demo.nextPage (Demo.page 1)
              Demo.users (Demo.env [] Demo.idle 0) (Demo.env [] Demo.idle 0)
              (Demo.onPage1 None) eq_refl)))).
Defined.

Lemma shouldLoad_monotone_witness :
  @QueriedEntity.shouldLoad Demo.plain 30000 (Some (Demo.response (Some 0)))
  = true.
Proof.
  apply (@shouldLoad_monotone Demo.plain 20000 30000); [lia | reflexivity].
Defined.

Lemma preloader_metadata_witness :
  JsObject.get "content"
    (QueriedEntity.fields
       (@QueriedEntity.metadataCopy
          (@QueriedEntity.queryMetadata Demo.plain
             (Some (QueriedEntity.Loaded Demo.listing)))))
  = None.
Proof.
  apply (proj1 (@preloader_metadata Demo.plain (Demo.page 1) Demo.users
                  (Demo.env
                     [("/users?page=1", QueriedEntity.Loaded Demo.listing)]
                     Demo.idle 0)
                  (Demo.onPage1 (Some Demo.nextPage)) (Demo.page 1)
                  (Demo.page 1) _ ltac:(vm_compute; left))
           "content" eq_refl ltac:(discriminate) ltac:(discriminate)).
Defined.

Lemma initialQuery_sets_up_witness :
  QueriedEntity.state
    (QueriedEntity.after
       (QueriedEntity.turn
          (@QueriedEntity.initialQuery Demo.plain Demo.users
             (Some (Demo.page 1)))
          (Demo.env [] Demo.idle 0) QueriedEntity.initialInstance))
  = {| QueriedEntity.url := Demo.users;
       QueriedEntity.params := Demo.page 1;
       QueriedEntity.loadingData := true |}.
Proof.
  exact (proj1 (@initialQuery_sets_up Demo.plain "/users" (Some (Demo.page 1))
                  (Demo.env [] Demo.idle 0) QueriedEntity.initialInstance
                  eq_refl (wf_page 1))).
Defined.

Lemma mutation_throws_iff_witness :
  QueriedEntity.threw
    (@QueriedEntity.create Demo.plain [("name", VStr "Ann")]
       (Demo.env [] Demo.idle 0)
       {| QueriedEntity.state :=
            {| QueriedEntity.url := Some "";
               QueriedEntity.params := [];
               QueriedEntity.loadingData := false |};
          QueriedEntity.pendingState := [];
          QueriedEntity.preLoaderFunc := None |})
  = true.
Proof.
  apply (proj1 (@mutation_throws_iff Demo.plain (Demo.env [] Demo.idle 0) _)).
  right. reflexivity.
Defined.

Lemma query_again_same_params_witness :
  QueriedEntity.params
    (QueriedEntity.state
       (QueriedEntity.after
          (QueriedEntity.turn
             (@QueriedEntity.query Demo.plain (Some (Demo.size 20)) None false)
             (Demo.env [] Demo.idle 50)
             (QueriedEntity.after
                (QueriedEntity.turn
                   (@QueriedEntity.query Demo.plain (Some (Demo.size 20)) None
                      false)
                   (Demo.env [] Demo.idle 0) (Demo.onPage1 None))))))
  = [("page", VNum 1); ("size", VNum 20)].
Proof.
  rewrite (@query_again_same_params Demo.plain (Demo.size 20) None None
             (Demo.env [] Demo.idle 0) (Demo.env [] Demo.idle 50)
             (Demo.onPage1 None) (wf_page 1) (wf_size 20) eq_refl).
  reflexivity.
Defined.

Lemma refresh_fetches_when_stale_witness :
  QueriedEntity.QueryEntities "user" Demo.users (Demo.page 1) false false
    false
  ∉ QueriedEntity.calls
      (QueriedEntity.settle
         (QueriedEntity.PThen (@QueriedEntity.refresh Demo.plain))
         QueriedEntity.Fulfilled
         (Demo.env [("/users?page=1", Demo.response (Some 0))] Demo.idle 5000)
         (Demo.onPage1 None)).
Proof.
  apply (proj2 (@refresh_fetches_when_stale Demo.plain
                  (Demo.env [("/users?page=1", Demo.response (Some 0))]
                     Demo.idle 5000)
                  (Demo.onPage1 None))).
  reflexivity.
Defined.

Lemma query_url_not_stored_witness :
  QueriedEntity.url
    (QueriedEntity.state
       (QueriedEntity.after
          (QueriedEntity.turn
             (@QueriedEntity.query Demo.plain (Some (Demo.page 1))
                (Some "/admins") false)
             (Demo.env [] Demo.idle 0) (Demo.onPage1 None))))
  = Demo.users.
Proof.
  exact (proj1 (@query_url_not_stored Demo.plain (Some (Demo.page 1))
                  "/admins" false (Demo.env [] Demo.idle 0)
                  (Demo.onPage1 None) eq_refl)).
Defined.

Lemma query_twice_in_one_turn_witness :
  JsObject.get "size"
    (QueriedEntity.params
       (QueriedEntity.state
          (QueriedEntity.after
             (QueriedEntity.turn
                (@QueriedEntity.query Demo.plain (Some (Demo.size 20)) None
                   false
                 ≫= fun _ =>
                      @QueriedEntity.query Demo.plain (Some (Demo.page 2))
                        None false)
                (Demo.env [] Demo.idle 0) (Demo.onPage1 None)))))
  = None.
Proof.
  exact (@query_twice_in_one_turn Demo.plain (Demo.size 20) (Demo.page 2) None
           None (Demo.env [] Demo.idle 0) (Demo.onPage1 None) (wf_page 1)
           (wf_size 20) (wf_page 2) eq_refl "size").
Defined.

Lemma preload_merges_over_state_witness :
  exists f p,
    QueriedEntity.preLoaderFunc (Demo.onPage1 (Some Demo.nextPage)) = Some f /\
    p ∈ QueriedEntity.predicted (setup := Demo.plain) f
          (Demo.env [] Demo.idle 0)
          (QueriedEntity.queried (setup := Demo.plain)
             (Demo.onPage1 (Some Demo.nextPage)) (Some (Demo.size 20)) false)
          (Demo.size 20) Demo.users /\
    Demo.page 2 = JsObject.spread (Demo.page 1) p.
Proof.
  apply (@preload_merges_over_state Demo.plain (Some (Demo.size 20)) None
           false (Demo.env [] Demo.idle 0)
           (Demo.onPage1 (Some Demo.nextPage)) "user" Demo.users (Demo.page 2)
           true false).
  vm_compute. right; right; left.
Defined.

Lemma query_without_setup_witness :
  QueriedEntity.threw
    (@QueriedEntity.query Demo.plain (Some (Demo.page 1)) None false
       (Demo.env [] Demo.idle 0) QueriedEntity.initialInstance)
  = false.
Proof.
  exact (proj1 (@query_without_setup Demo.plain (Some (Demo.page 1)) false
                  (Demo.env [] Demo.idle 0) QueriedEntity.initialInstance
                  eq_refl eq_refl)).
Defined.
